(** * Credential generators and expression calculator of the MCP utility server

    A shallow embedding of [generator_tools.py], of
    [UnitConverter.calculate] in [unit_converter.py] and of the [calculate]
    tool in [server.py], with the properties the design document states
    about them; then of the generator tools of [server.py], of the unit
    conversions of [unit_converter.py] and of
    [TextAnalyzer.most_common_words], with further properties of the code.

    Python integers are [Z]; list positions are [nat]; strings are
    [string], read as the UTF-8 bytes of the Python text (everything the
    generators produce is ASCII).  Code that draws from the operating
    system's random generator, or that may raise, lives in the monad [M]
    below: a state monad over the stream of values the environment hands
    out, with Python exceptions as the second kind of outcome. *)

From Stdlib Require Import ZArith QArith String Ascii List Lia DecimalString Sorted.
From stdpp Require Import base list strings.

#[local] Open Scope string_scope.
#[local] Open Scope nat_scope.
#[local] Arguments String.append : simpl nomatch.

(** ** Python outcomes *)

Module Py.

(** The exception classes that occur.  [KeyboardInterrupt] and
    [SystemExit] derive from [BaseException] only; every other class
    derives from [Exception]. *)
Inductive ExcClass : Type :=
| ValueError | TypeError | IndexError | NameError | SyntaxError
| ZeroDivisionError | OverflowError | UnicodeEncodeError | AttributeError
| KeyboardInterrupt | SystemExit.

Definition is_Exception (c : ExcClass) : bool :=
  match c with
  | KeyboardInterrupt | SystemExit => false
  | _ => true
  end.

(** An exception value: its class and [str(e)]. *)
Record Exc : Type := mkExc { exc_class : ExcClass; exc_str : string }.

Inductive Outcome (A : Type) : Type :=
| Returned (a : A)
| Raised (e : Exc).
Arguments Returned {A} a.
Arguments Raised {A} e.

(** The environment: [tape] lists the values the outside world supplies
    on successive reads (CSPRNG output, clock, host identifier), [pos]
    counts the reads made so far. *)
Record World : Type := mkWorld { tape : nat -> N; pos : nat }.

Definition read (w : World) : N := tape w (pos w).
Definition advance (w : World) : World := mkWorld (tape w) (S (pos w)).

Definition M (A : Type) : Type := World -> Outcome A * World.

Definition ret {A} (a : A) : M A := fun w => (Returned a, w).
Definition raise {A} (c : ExcClass) (msg : string) : M A :=
  fun w => (Raised (mkExc c msg), w).
Definition bind {A B} (m : M A) (k : A -> M B) : M B :=
  fun w =>
    match m w with
    | (Returned a, w') => k a w'
    | (Raised e, w') => (Raised e, w')
    end.

(** [try: body except Exception as e: handler(e)]: classes outside
    [Exception] pass through. *)
Definition try_except_Exception {A} (body : M A) (handler : Exc -> M A) : M A :=
  fun w =>
    match body w with
    | (Returned a, w') => (Returned a, w')
    | (Raised e, w') =>
        if is_Exception (exc_class e) then handler e w' else (Raised e, w')
    end.

(** [for x in xs: body], threading an accumulator. *)
Fixpoint for_each {A B} (xs : list A) (body : A -> B -> M B) (acc : B) : M B :=
  match xs with
  | [] => ret acc
  | x :: xs' => bind (body x acc) (for_each xs' body)
  end.

(** [range(start, stop, step)] for a non-zero step. *)
Definition range3 (start stop step : Z) : list Z :=
  let n :=
    if (0 <? step)%Z then ((stop - start + step - 1) / step)%Z
    else if (step <? 0)%Z then ((start - stop - step - 1) / (- step))%Z
    else 0%Z in
  map (fun k => (start + Z.of_nat k * step)%Z) (seq 0 (Z.to_nat n)).

Definition range (stop : Z) : list Z := range3 0 stop 1.

End Py.

Import Py.

Notation "x <- m ;; k" := (Py.bind m (fun x => k))
  (at level 100, m at next level, right associativity).

(** ** The [secrets] primitives the generators call *)

Module Secrets.

(** [secrets.randbelow(n)]: an integer in [[0, n)].  One read of the
    environment decides the outcome; reducing the value read modulo [n]
    lets every tape stand for a run, and every run for some tape. *)
Definition randbelow (n : nat) : M nat :=
  match n with
  | 0 => raise ValueError "Upper bound must be positive."
  | S _ => fun w => (Returned (N.to_nat (read w mod N.of_nat n)), advance w)
  end.

(** [secrets.choice(seq)] on a string. *)
Definition choice (seq : string) : M ascii :=
  match String.length seq with
  | 0 => raise IndexError "Cannot choose from an empty sequence"
  | S _ =>
      i <- randbelow (String.length seq) ;;
      match String.get i seq with
      | Some c => ret c
      | None => raise IndexError "string index out of range"
      end
  end.

(** [os.urandom(n)]: [n] bytes, each one read. *)
Fixpoint urandom_bytes (n : nat) : M (list Z) :=
  match n with
  | 0 => ret []
  | S n' =>
      b <- (fun w => (Returned (Z.of_N (read w mod 256)), advance w)) ;;
      bs <- urandom_bytes n' ;;
      ret (b :: bs)
  end.

Definition urandom (n : Z) : M (list Z) :=
  if (n <? 0)%Z then raise ValueError "negative argument not allowed"
  else urandom_bytes (Z.to_nat n).

End Secrets.

(** ** Text helpers *)

Module Text.

Definition nl : string := String (ascii_of_nat 10) EmptyString.

(** [str(n)] for a Python integer. *)
Definition str_int (z : Z) : string :=
  NilZero.string_of_int (Z.to_int z).

(** [sep.join(parts)]. *)
Fixpoint join (sep : string) (parts : list string) : string :=
  match parts with
  | [] => ""
  | [p] => p
  | p :: rest => p +:+ sep +:+ join sep rest
  end.

Definition upper_char (c : ascii) : ascii :=
  let n := nat_of_ascii c in
  if (97 <=? n) && (n <=? 122) then ascii_of_nat (n - 32) else c.

Definition lower_char (c : ascii) : ascii :=
  let n := nat_of_ascii c in
  if (65 <=? n) && (n <=? 90) then ascii_of_nat (n + 32) else c.

Fixpoint map_string (f : ascii -> ascii) (s : string) : string :=
  match s with
  | EmptyString => EmptyString
  | String c s' => String (f c) (map_string f s')
  end.

(** [s.upper()] and [s.lower()] on the ASCII letters; the other bytes of
    the UTF-8 text stay as they are.  The code upper-cases only the five
    generator names.  It lower-cases the expression to look for seven ASCII
    words; of the characters outside ASCII only U+0130 and U+212A lower to
    something with an ASCII letter ([i] followed by U+0307, and [k]), and
    neither can complete one of these words, so the search on the bytes
    finds a word exactly when Python finds it. *)
Definition upper : string -> string := map_string upper_char.
Definition lower : string -> string := map_string lower_char.

(** [needle in haystack]. *)
Fixpoint contains (needle haystack : string) : bool :=
  String.prefix needle haystack ||
  match haystack with
  | EmptyString => false
  | String _ rest => contains needle rest
  end.

Definition hex_alphabet : string := "0123456789abcdef".

(** The lower-case hexadecimal digit of a nibble. *)
Definition hex_digit (n : Z) : ascii :=
  match String.get (Z.to_nat (n mod 16)) hex_alphabet with
  | Some c => c
  | None => "0"%char
  end.

(** [bytes.hex()]: two digits per byte, high nibble first. *)
Fixpoint hex (bs : list Z) : string :=
  match bs with
  | [] => ""
  | b :: bs' => String (hex_digit (b / 16)) (String (hex_digit b) (hex bs'))
  end.

(** First binding of a key in an ordered dictionary. *)
Fixpoint dict_get {V} (k : string) (d : list (string * V)) : option V :=
  match d with
  | [] => None
  | (k', v) :: d' => if String.eqb k k' then Some v else dict_get k d'
  end.

End Text.

Import Text.

(** ** The digests of [hashlib]

    MD5 (RFC 1321), SHA-1, SHA-256 and SHA-512 (FIPS 180-4) on byte
    strings.  A word of [w] bits is a [Z] in [[0, 2^w)]; additions wrap. *)

Module Hashlib.

#[local] Open Scope Z_scope.

Definition wrap (w x : Z) : Z := x mod 2 ^ w.
Definition add (w x y : Z) : Z := wrap w (x + y).
Definition rotr (w n x : Z) : Z :=
  Z.lor (Z.shiftr x n) (wrap w (Z.shiftl x (w - n))).
Definition rotl (w n x : Z) : Z :=
  Z.lor (wrap w (Z.shiftl x n)) (Z.shiftr x (w - n)).
Definition lnot (w x : Z) : Z := Z.lxor x (2 ^ w - 1).

(** Bytes of a value, most significant first and least significant first. *)
Fixpoint be_bytes (n : nat) (x : Z) : list Z :=
  match n with
  | O => []
  | S n' => (x / 256 ^ Z.of_nat n') mod 256 :: be_bytes n' x
  end.

Fixpoint le_bytes (n : nat) (x : Z) : list Z :=
  match n with
  | O => []
  | S n' => x mod 256 :: le_bytes n' (x / 256)
  end.

Definition be_word (bs : list Z) : Z := fold_left (fun acc b => acc * 256 + b) bs 0.
Definition le_word (bs : list Z) : Z := fold_right (fun b acc => b + 256 * acc) 0 bs.

(** Consecutive pieces of [n] elements. *)
Fixpoint chunks_fuel {A} (fuel n : nat) (l : list A) : list (list A) :=
  match fuel, l with
  | O, _ | _, [] => []
  | S fuel', _ => take n l :: chunks_fuel fuel' n (drop n l)
  end.

Definition chunks {A} (n : nat) (l : list A) : list (list A) :=
  chunks_fuel (length l) n l.

(** Padding: the byte 0x80, zeros up to the length field, then the bit
    length on [len_bytes] bytes. *)
Definition pad (block len_bytes : nat) (big_endian : bool) (msg : list Z) : list Z :=
  let l := length msg in
  let zeros := ((block - (l + 1 + len_bytes) mod block) mod block)%nat in
  let bits := 8 * Z.of_nat l in
  msg ++ [128] ++ repeat 0 zeros
      ++ (if big_endian then be_bytes len_bytes bits else le_bytes len_bytes bits).

(** *** SHA-2 *)

Record Sha2Params : Type := {
  word_bits : Z;
  word_bytes : nat;
  round_constants : list Z;
  initial_hash : Z * Z * Z * Z * Z * Z * Z * Z;
  big_sigma0 : Z * Z * Z;
  big_sigma1 : Z * Z * Z;
  small_sigma0 : Z * Z * Z;
  small_sigma1 : Z * Z * Z
}.

Section Sha2.
Variable P : Sha2Params.
Let w := word_bits P.

Definition Ch (x y z : Z) : Z := Z.lxor (Z.land x y) (Z.land (lnot w x) z).
Definition Maj (x y z : Z) : Z :=
  Z.lxor (Z.lxor (Z.land x y) (Z.land x z)) (Z.land y z).
Definition rot3 (r : Z * Z * Z) (x : Z) : Z :=
  let '(r1, r2, r3) := r in
  Z.lxor (Z.lxor (rotr w r1 x) (rotr w r2 x)) (rotr w r3 x).
Definition rot2_shift (r : Z * Z * Z) (x : Z) : Z :=
  let '(r1, r2, s) := r in
  Z.lxor (Z.lxor (rotr w r1 x) (rotr w r2 x)) (Z.shiftr x s).

(** Message schedule, newest word first. *)
Fixpoint extend_schedule (n : nat) (ws : list Z) : list Z :=
  match n with
  | O => ws
  | S n' =>
      let g i := nth i ws 0 in
      extend_schedule n'
        (add w (add w (rot2_shift (small_sigma1 P) (g 1%nat)) (g 6%nat))
               (add w (rot2_shift (small_sigma0 P) (g 14%nat)) (g 15%nat)) :: ws)
  end.

Definition schedule (block : list Z) : list Z :=
  let words := map be_word (chunks (word_bytes P) block) in
  rev (extend_schedule (length (round_constants P) - 16) (rev words)).

Definition sha2_round (st : Z * Z * Z * Z * Z * Z * Z * Z) (kw : Z * Z)
  : Z * Z * Z * Z * Z * Z * Z * Z :=
  let '(a, b, c, d, e, f, g, h) := st in
  let '(k, x) := kw in
  let t1 := add w (add w (add w h (rot3 (big_sigma1 P) e)) (add w (Ch e f g) k)) x in
  let t2 := add w (rot3 (big_sigma0 P) a) (Maj a b c) in
  (add w t1 t2, a, b, c, add w d t1, e, f, g).

Definition sha2_compress (hs : Z * Z * Z * Z * Z * Z * Z * Z) (block : list Z)
  : Z * Z * Z * Z * Z * Z * Z * Z :=
  let '(a, b, c, d, e, f, g, h) :=
    fold_left sha2_round (combine (round_constants P) (schedule block)) hs in
  let '(h0, h1, h2, h3, h4, h5, h6, h7) := hs in
  (add w h0 a, add w h1 b, add w h2 c, add w h3 d,
   add w h4 e, add w h5 f, add w h6 g, add w h7 h).

Definition sha2 (msg : list Z) : list Z :=
  let block := (16 * word_bytes P)%nat in
  let '(h0, h1, h2, h3, h4, h5, h6, h7) :=
    fold_left sha2_compress
      (chunks block (pad block (2 * word_bytes P) true msg)) (initial_hash P) in
  concat (map (be_bytes (word_bytes P)) [h0; h1; h2; h3; h4; h5; h6; h7]).

End Sha2.

(** The constants of SHA-2 are digits of roots of primes: the round
    constants are the first bits of the fractional parts of the cube roots
    of the first primes, the initial hash values those of their square
    roots. *)
Fixpoint primes_below (fuel : nat) (k : Z) (found : list Z) : list Z :=
  match fuel with
  | O => rev found
  | S fuel' =>
      primes_below fuel' (k + 1)
        (if forallb (fun p => negb (k mod p =? 0)) found then k :: found else found)
  end.

Definition first_primes (n : nat) : list Z := take n (primes_below 408 2 []).

Fixpoint cube_root_bits (bits : nat) (x acc : Z) : Z :=
  match bits with
  | O => acc
  | S b =>
      let candidate := acc + 2 ^ Z.of_nat b in
      cube_root_bits b x (if candidate ^ 3 <=? x then candidate else acc)
  end.

Definition cube_root (x : Z) : Z :=
  cube_root_bits (Z.to_nat (Z.log2 x / 3 + 1)) x 0.

Definition cube_root_fraction (bits p : Z) : Z :=
  cube_root (p * 2 ^ (3 * bits)) mod 2 ^ bits.

Definition square_root_fraction (bits p : Z) : Z :=
  Z.sqrt (p * 2 ^ (2 * bits)) mod 2 ^ bits.

Definition eight (l : list Z) : Z * Z * Z * Z * Z * Z * Z * Z :=
  (nth 0 l 0, nth 1 l 0, nth 2 l 0, nth 3 l 0, nth 4 l 0, nth 5 l 0, nth 6 l 0, nth 7 l 0).

Definition sha256_round_constants : list Z :=
  Eval vm_compute in map (cube_root_fraction 32) (first_primes 64).
Definition sha256_initial_hash : Z * Z * Z * Z * Z * Z * Z * Z :=
  Eval vm_compute in eight (map (square_root_fraction 32) (first_primes 8)).
Definition sha512_round_constants : list Z :=
  Eval vm_compute in map (cube_root_fraction 64) (first_primes 80).
Definition sha512_initial_hash : Z * Z * Z * Z * Z * Z * Z * Z :=
  Eval vm_compute in eight (map (square_root_fraction 64) (first_primes 8)).

Definition sha256_params : Sha2Params := {|
  word_bits := 32;
  word_bytes := 4;
  round_constants := sha256_round_constants;
  initial_hash := sha256_initial_hash;
  big_sigma0 := (2, 13, 22);
  big_sigma1 := (6, 11, 25);
  small_sigma0 := (7, 18, 3);
  small_sigma1 := (17, 19, 10)
|}.

Definition sha512_params : Sha2Params := {|
  word_bits := 64;
  word_bytes := 8;
  round_constants := sha512_round_constants;
  initial_hash := sha512_initial_hash;
  big_sigma0 := (28, 34, 39);
  big_sigma1 := (14, 18, 41);
  small_sigma0 := (1, 8, 7);
  small_sigma1 := (19, 61, 6)
|}.

Definition sha256 : list Z -> list Z := sha2 sha256_params.
Definition sha512 : list Z -> list Z := sha2 sha512_params.

(** *** SHA-1 *)

Fixpoint sha1_extend (n : nat) (ws : list Z) : list Z :=
  match n with
  | O => ws
  | S n' =>
      let g i := nth i ws 0 in
      sha1_extend n'
        (rotl 32 1 (Z.lxor (Z.lxor (g 2%nat) (g 7%nat)) (Z.lxor (g 13%nat) (g 15%nat))) :: ws)
  end.

Definition sha1_round (st : Z * Z * Z * Z * Z) (tw : nat * Z) : Z * Z * Z * Z * Z :=
  let '(a, b, c, d, e) := st in
  let '(t, x) := tw in
  let '(f, k) :=
    if (t <? 20)%nat then (Z.lor (Z.land b c) (Z.land (lnot 32 b) d), 0x5a827999)
    else if (t <? 40)%nat then (Z.lxor (Z.lxor b c) d, 0x6ed9eba1)
    else if (t <? 60)%nat then
      (Z.lor (Z.lor (Z.land b c) (Z.land b d)) (Z.land c d), 0x8f1bbcdc)
    else (Z.lxor (Z.lxor b c) d, 0xca62c1d6) in
  let temp := add 32 (add 32 (add 32 (rotl 32 5 a) f) (add 32 e k)) x in
  (temp, a, rotl 32 30 b, c, d).

Definition sha1_compress (hs : Z * Z * Z * Z * Z) (block : list Z) : Z * Z * Z * Z * Z :=
  let ws := rev (sha1_extend 64 (rev (map be_word (chunks 4 block)))) in
  let '(a, b, c, d, e) := fold_left sha1_round (combine (seq 0 80) ws) hs in
  let '(h0, h1, h2, h3, h4) := hs in
  (add 32 h0 a, add 32 h1 b, add 32 h2 c, add 32 h3 d, add 32 h4 e).

Definition sha1 (msg : list Z) : list Z :=
  let '(h0, h1, h2, h3, h4) :=
    fold_left sha1_compress (chunks 64 (pad 64 8 true msg))
      (0x67452301, 0xefcdab89, 0x98badcfe, 0x10325476, 0xc3d2e1f0) in
  concat (map (be_bytes 4) [h0; h1; h2; h3; h4]).

(** *** MD5 *)

Definition md5_sines : list Z := [
  0xd76aa478; 0xe8c7b756; 0x242070db; 0xc1bdceee; 0xf57c0faf; 0x4787c62a;
  0xa8304613; 0xfd469501; 0x698098d8; 0x8b44f7af; 0xffff5bb1; 0x895cd7be;
  0x6b901122; 0xfd987193; 0xa679438e; 0x49b40821; 0xf61e2562; 0xc040b340;
  0x265e5a51; 0xe9b6c7aa; 0xd62f105d; 0x02441453; 0xd8a1e681; 0xe7d3fbc8;
  0x21e1cde6; 0xc33707d6; 0xf4d50d87; 0x455a14ed; 0xa9e3e905; 0xfcefa3f8;
  0x676f02d9; 0x8d2a4c8a; 0xfffa3942; 0x8771f681; 0x6d9d6122; 0xfde5380c;
  0xa4beea44; 0x4bdecfa9; 0xf6bb4b60; 0xbebfbc70; 0x289b7ec6; 0xeaa127fa;
  0xd4ef3085; 0x04881d05; 0xd9d4d039; 0xe6db99e5; 0x1fa27cf8; 0xc4ac5665;
  0xf4292244; 0x432aff97; 0xab9423a7; 0xfc93a039; 0x655b59c3; 0x8f0ccc92;
  0xffeff47d; 0x85845dd1; 0x6fa87e4f; 0xfe2ce6e0; 0xa3014314; 0x4e0811a1;
  0xf7537e82; 0xbd3af235; 0x2ad7d2bb; 0xeb86d391
  ].

Definition md5_shifts : list Z :=
  [7; 12; 17; 22; 7; 12; 17; 22; 7; 12; 17; 22; 7; 12; 17; 22;
   5; 9; 14; 20; 5; 9; 14; 20; 5; 9; 14; 20; 5; 9; 14; 20;
   4; 11; 16; 23; 4; 11; 16; 23; 4; 11; 16; 23; 4; 11; 16; 23;
   6; 10; 15; 21; 6; 10; 15; 21; 6; 10; 15; 21; 6; 10; 15; 21].

Definition md5_round (m : list Z) (st : Z * Z * Z * Z) (i : nat) : Z * Z * Z * Z :=
  let '(a, b, c, d) := st in
  let '(f, g) :=
    if (i <? 16)%nat then (Z.lor (Z.land b c) (Z.land (lnot 32 b) d), i)
    else if (i <? 32)%nat then
      (Z.lor (Z.land d b) (Z.land (lnot 32 d) c), ((5 * i + 1) mod 16)%nat)
    else if (i <? 48)%nat then (Z.lxor (Z.lxor b c) d, ((3 * i + 5) mod 16)%nat)
    else (Z.lxor c (Z.lor b (lnot 32 d)), ((7 * i) mod 16)%nat) in
  let f' := add 32 (add 32 f a) (add 32 (nth i md5_sines 0) (nth g m 0)) in
  (d, add 32 b (rotl 32 (nth i md5_shifts 0) f'), b, c).

Definition md5_compress (hs : Z * Z * Z * Z) (block : list Z) : Z * Z * Z * Z :=
  let m := map le_word (chunks 4 block) in
  let '(a, b, c, d) := fold_left (md5_round m) (seq 0 64) hs in
  let '(a0, b0, c0, d0) := hs in
  (add 32 a0 a, add 32 b0 b, add 32 c0 c, add 32 d0 d).

Definition md5 (msg : list Z) : list Z :=
  let '(a, b, c, d) :=
    fold_left md5_compress (chunks 64 (pad 64 8 false msg))
      (0x67452301, 0xefcdab89, 0x98badcfe, 0x10325476) in
  concat (map (le_bytes 4) [a; b; c; d]).

(** [str.encode()]: UTF-8.  A Python string is its list of code points;
    a surrogate (U+D800 to U+DFFF) cannot be encoded. *)
Definition is_surrogate (c : Z) : bool := (0xD800 <=? c) && (c <=? 0xDFFF).

Definition utf8_char (c : Z) : list Z :=
  if c <? 0x80 then [c]
  else if c <? 0x800 then [0xC0 + c / 64; 0x80 + c mod 64]
  else if c <? 0x10000 then
    [0xE0 + c / 4096; 0x80 + (c / 64) mod 64; 0x80 + c mod 64]
  else
    [0xF0 + c / 262144; 0x80 + (c / 4096) mod 64; 0x80 + (c / 64) mod 64; 0x80 + c mod 64].

(** Where the first surrogate stands, which one it is, and how many
    surrogates follow it directly. *)
Fixpoint surrogate_run (text : list Z) : nat :=
  match text with
  | c :: rest => if is_surrogate c then S (surrogate_run rest) else O
  | [] => O
  end.

Fixpoint find_surrogate (p : nat) (text : list Z) : option (nat * Z * nat) :=
  match text with
  | [] => None
  | c :: rest =>
      if is_surrogate c then Some (p, c, surrogate_run rest)
      else find_surrogate (S p) rest
  end.

Definition encode (text : list Z) : Py.Outcome (list Z) :=
  match find_surrogate 0 text with
  | None => Py.Returned (concat (map utf8_char text))
  | Some (p, c, O) =>
      Py.Raised (Py.mkExc Py.UnicodeEncodeError
        ("'utf-8' codec can't encode character '\u" +:+ Text.hex (be_bytes 2 c)
         +:+ "' in position " +:+ Text.str_int (Z.of_nat p)
         +:+ ": surrogates not allowed"))
  | Some (p, _, S k) =>
      Py.Raised (Py.mkExc Py.UnicodeEncodeError
        ("'utf-8' codec can't encode characters in position "
         +:+ Text.str_int (Z.of_nat p) +:+ "-" +:+ Text.str_int (Z.of_nat (p + S k))
         +:+ ": surrogates not allowed"))
  end.

End Hashlib.

(** ** [generator_tools.py] *)

Module GeneratorTools.

Import Secrets.

(** *** The [uuid] module *)

(** [str(UUID(int=n))]: 32 hexadecimal digits in groups 8-4-4-4-12. *)
Definition uuid_str (n : Z) : string :=
  let h := hex (Hashlib.be_bytes 16 n) in
  substring 0 8 h +:+ "-" +:+ substring 8 4 h +:+ "-" +:+ substring 12 4 h
    +:+ "-" +:+ substring 16 4 h +:+ "-" +:+ substring 20 12 h.

(** The constructor's [version] argument: the variant bits become RFC 4122,
    the version nibble becomes [version]. *)
Definition set_version (n version : Z) : Z :=
  let n := Z.land n (Z.lnot (Z.shiftl 0xc000 48)) in
  let n := Z.lor n (Z.shiftl 0x8000 48) in
  let n := Z.land n (Z.lnot (Z.shiftl 0xf000 64)) in
  Z.lor n (Z.shiftl version 76).

(** [uuid.uuid4()]: sixteen bytes of [os.urandom]. *)
Definition uuid4 : M string :=
  bs <- urandom 16 ;;
  ret (uuid_str (set_version (Hashlib.be_word bs) 4)).

(** [uuid.uuid1()]: a 60-bit timestamp, a 14-bit clock sequence and the
    48-bit node, each one read of the environment. *)
Definition uuid1 : M string :=
  timestamp <- (fun w => (Returned (Z.of_N (read w) mod 2 ^ 60)%Z, advance w)) ;;
  clock_seq <- (fun w => (Returned (Z.of_N (read w) mod 2 ^ 14)%Z, advance w)) ;;
  node <- (fun w => (Returned (Z.of_N (read w) mod 2 ^ 48)%Z, advance w)) ;;
  let time_low := Z.land timestamp 0xffffffff in
  let time_mid := Z.land (Z.shiftr timestamp 32) 0xffff in
  let time_hi_version := Z.land (Z.shiftr timestamp 48) 0x0fff in
  let clock_seq_low := Z.land clock_seq 0xff in
  let clock_seq_hi_variant := Z.land (Z.shiftr clock_seq 8) 0x3f in
  let n :=
    Z.lor (Z.lor (Z.lor (Z.shiftl time_low 96) (Z.shiftl time_mid 80))
                 (Z.lor (Z.shiftl time_hi_version 64) (Z.shiftl clock_seq_hi_variant 56)))
          (Z.lor (Z.shiftl clock_seq_low 48) node) in
  ret (uuid_str (set_version n 1)).

(** *** [class GeneratorTools] *)

Definition ascii_uppercase : string := "ABCDEFGHIJKLMNOPQRSTUVWXYZ".
Definition ascii_lowercase : string := "abcdefghijklmnopqrstuvwxyz".
Definition digits : string := "0123456789".
Definition symbols : string := "!@#$%^&*()_+-=[]{}|;:,.<>?".
Definition ascii_letters : string := ascii_lowercase +:+ ascii_uppercase.

Definition generate_uuid (version : Z) : M string :=
  if (version =? 1)%Z then uuid1
  else if (version =? 4)%Z then uuid4
  else raise ValueError "Only UUID version 1 and 4 are supported".

(** [buf.extend(secrets.choice(pool) for _ in range(n))], and with an
    empty [buf] the generator fed to [''.join]. *)
Definition extend_choices (pool : string) (n : Z) (buf : list ascii) : M (list ascii) :=
  for_each (range n) (fun _ acc => c <- choice pool ;; ret (acc ++ [c])%list) buf.

(** [shuffled[i], shuffled[j] = shuffled[j], shuffled[i]]: both reads
    come first, then the store at [i], then the store at [j]. *)
Definition swap {A} (shuffled : list A) (i j : nat) : M (list A) :=
  match shuffled !! j, shuffled !! i with
  | Some at_j, Some at_i => ret (<[j := at_i]> (<[i := at_j]> shuffled))
  | _, _ => raise IndexError "list index out of range"
  end.

(** The loop of [generate_password] that shuffles the buffer. *)
Definition shuffle (password : list ascii) : M (list ascii) :=
  for_each (range3 (Z.of_nat (length password) - 1) 0 (-1))
    (fun i shuffled =>
       j <- randbelow (Z.to_nat (i + 1)) ;;
       swap shuffled (Z.to_nat i) j)
    password.

(** One character of a class, appended when the class is selected. *)
Definition append_choice (selected : bool) (class : string) (password : list ascii)
  : M (list ascii) :=
  if selected then c <- choice class ;; ret (password ++ [c])%list else ret password.

(** The password before it is shuffled. *)
Definition fill_password (length : Z)
    (include_uppercase include_lowercase include_digits include_symbols : bool)
    (characters : string) : M (list ascii) :=
  password <- append_choice include_uppercase ascii_uppercase [] ;;
  password <- append_choice include_lowercase ascii_lowercase password ;;
  password <- append_choice include_digits digits password ;;
  password <- append_choice include_symbols symbols password ;;
  let remaining_length := (length - Z.of_nat (List.length password))%Z in
  extend_choices characters remaining_length password.

Definition character_pool
    (include_uppercase include_lowercase include_digits include_symbols : bool) : string :=
  (if include_uppercase then ascii_uppercase else "")
    +:+ (if include_lowercase then ascii_lowercase else "")
    +:+ (if include_digits then digits else "")
    +:+ (if include_symbols then symbols else "").

Definition generate_password (length : Z)
    (include_uppercase include_lowercase include_digits include_symbols : bool)
  : M string :=
  if (length <? 8)%Z then
    raise ValueError "Password length must be at least 8 characters"
  else
    let characters :=
      character_pool include_uppercase include_lowercase include_digits include_symbols in
    if String.eqb characters "" then
      raise ValueError "At least one character type must be selected"
    else
      password <- fill_password length include_uppercase include_lowercase
                    include_digits include_symbols characters ;;
      shuffled <- shuffle password ;;
      ret (string_of_list_ascii shuffled).

Definition generate_api_key (length : Z) : M string :=
  if (length <? 16)%Z then
    raise ValueError "API key length must be at least 16 characters"
  else
    cs <- extend_choices (ascii_letters +:+ digits) length [] ;;
    ret (string_of_list_ascii cs).

(** [secrets.token_hex(length)] is [os.urandom(length).hex()]. *)
Definition generate_token (length : Z) : M string :=
  bs <- urandom length ;;
  ret (hex bs).

Definition generate_pin (length : Z) : M string :=
  if (length <? 4)%Z then
    raise ValueError "PIN length must be at least 4 digits"
  else
    cs <- extend_choices digits length [] ;;
    ret (string_of_list_ascii cs).

Definition algorithms : list (string * (list Z -> list Z)) :=
  [("md5", Hashlib.md5); ("sha1", Hashlib.sha1);
   ("sha256", Hashlib.sha256); ("sha512", Hashlib.sha512)].

(** [hash_string] reads nothing from the environment: it is a function of
    its two arguments, outside [M]. *)
Definition hash_string (text : list Z) (algorithm : string) : Outcome string :=
  match dict_get algorithm algorithms with
  | None =>
      Raised (mkExc ValueError
        ("Unsupported algorithm. Choose from: " +:+ join ", " (map fst algorithms)))
  | Some h =>
      match Hashlib.encode text with
      | Returned bytes => Returned (hex (h bytes))
      | Raised e => Raised e
      end
  end.

(** *** [generate_multiple] *)

(** A keyword argument: the tools pass integers and booleans.  [bool] is a
    subclass of [int], and an [int] has a truth value. *)
Inductive Arg : Type := AInt (z : Z) | ABool (b : bool).

Definition as_int (a : Arg) : Z :=
  match a with AInt z => z | ABool b => if b then 1%Z else 0%Z end.

Definition truthy (a : Arg) : bool :=
  match a with AInt z => negb (z =? 0)%Z | ABool b => b end.

(** The keyword arguments: a dictionary in insertion order. *)
Definition Kwargs : Type := list (string * Arg).

Definition kwarg (name : string) (default : Arg) (kwargs : Kwargs) : Arg :=
  match dict_get name kwargs with Some a => a | None => default end.

Fixpoint unexpected_keyword (params : list string) (kwargs : Kwargs) : option string :=
  match kwargs with
  | [] => None
  | (k, _) :: rest =>
      if existsb (String.eqb k) params then unexpected_keyword params rest else Some k
  end.

(** Calling [f] with the dictionary as its keyword arguments: a keyword
    that [f] does not declare is a [TypeError]. *)
Definition call_with (qualname : string) (params : list string) (kwargs : Kwargs)
    (body : M string) : M string :=
  match unexpected_keyword params kwargs with
  | Some k =>
      raise TypeError
        (qualname +:+ "() got an unexpected keyword argument '" +:+ k +:+ "'")
  | None => body
  end.

Definition generators : list (string * (Kwargs -> M string)) :=
  [("uuid", fun kw =>
      call_with "GeneratorTools.generate_uuid" ["version"] kw
        (generate_uuid (as_int (kwarg "version" (AInt 4) kw))));
   ("password", fun kw =>
      call_with "GeneratorTools.generate_password"
        ["length"; "include_uppercase"; "include_lowercase"; "include_digits";
         "include_symbols"] kw
        (generate_password (as_int (kwarg "length" (AInt 16) kw))
           (truthy (kwarg "include_uppercase" (ABool true) kw))
           (truthy (kwarg "include_lowercase" (ABool true) kw))
           (truthy (kwarg "include_digits" (ABool true) kw))
           (truthy (kwarg "include_symbols" (ABool true) kw))));
   ("api_key", fun kw =>
      call_with "GeneratorTools.generate_api_key" ["length"] kw
        (generate_api_key (as_int (kwarg "length" (AInt 32) kw))));
   ("token", fun kw =>
      call_with "GeneratorTools.generate_token" ["length"] kw
        (generate_token (as_int (kwarg "length" (AInt 32) kw))));
   ("pin", fun kw =>
      call_with "GeneratorTools.generate_pin" ["length"] kw
        (generate_pin (as_int (kwarg "length" (AInt 6) kw))))].

Definition icon_map : list (string * string) :=
  [("uuid", "🔑"); ("password", "🔐"); ("api_key", "🎫"); ("token", "🎟️");
   ("pin", "🔢")].

Definition item_line (i : Z) (item : string) : string :=
  str_int (i + 1) +:+ ". " +:+ item.

Definition error_line (i : Z) (e : Exc) : string :=
  str_int (i + 1) +:+ ". Error: " +:+ exc_str e.

(** The body of the loop: one call, one line appended. *)
Definition record_call (generator : M string) (i : Z) (results : list string)
  : M (list string) :=
  try_except_Exception
    (item <- generator ;; ret (results ++ [item_line i item])%list)
    (fun e => ret (results ++ [error_line i e])%list).

(** [for i in range(count): ...], for the generator bound to its arguments. *)
Definition run_batch (generator : M string) (count : Z) : M (list string) :=
  for_each (range count) (record_call generator) [].

Definition generate_multiple (generator_type : string) (count : Z) (kwargs : Kwargs)
  : M string :=
  match dict_get generator_type generators with
  | None =>
      ret ("❌ Invalid generator type. Choose from: "
           +:+ join ", " (map fst generators))
  | Some generator =>
      results <- run_batch (generator kwargs) count ;;
      let icon :=
        match dict_get generator_type icon_map with Some i => i | None => "🔧" end in
      let header :=
        icon +:+ " Generated " +:+ str_int count +:+ " " +:+ upper generator_type
             +:+ "(s):" in
      ret (header +:+ nl +:+ join nl results)
  end.

End GeneratorTools.

(** ** [UnitConverter.calculate] in [unit_converter.py] *)

Module UnitConverter.

(** What the names of [safe_dict] are bound to. *)
Inductive Builtin : Type :=
| b_abs | b_round | b_min | b_max | b_sum | b_pow
| math_sqrt | math_sin | math_cos | math_tan | math_log | math_log10 | math_exp
| math_pi | math_e | math_ceil | math_floor.

Definition safe_dict : list (string * Builtin) :=
  [("abs", b_abs); ("round", b_round); ("min", b_min); ("max", b_max);
   ("sum", b_sum); ("pow", b_pow); ("sqrt", math_sqrt); ("sin", math_sin);
   ("cos", math_cos); ("tan", math_tan); ("log", math_log);
   ("log10", math_log10); ("exp", math_exp); ("pi", math_pi); ("e", math_e);
   ("ceil", math_ceil); ("floor", math_floor)].

(** The globals handed to [eval]: [__builtins__] bound to an empty dictionary. *)
Definition eval_globals : list (string * list (string * Builtin)) :=
  [("__builtins__", [])].

Definition forbidden : list string :=
  ["__"; "import"; "eval"; "exec"; "open"; "file"; "compile"].

(** [any(word in expression.lower() for word in forbidden)]. *)
Definition has_forbidden (expression : string) : bool :=
  existsb (fun word => contains word (lower expression)) forbidden.

Definition forbidden_message : string :=
  "‚ùå Expression contains forbidden operations".

Definition calculation_error (e : Exc) : string :=
  "‚ùå Calculation error: " +:+ exc_str e.

Section Calculate.

(** The floats of the host language and the built-in [round(x, ndigits)]
    on them are taken as given. *)
Variable pyfloat : Type.
Variable round_float : pyfloat -> Z -> pyfloat.

(** The objects an evaluation can produce. *)
#[warnings="-register-all"]
Inductive Value : Type :=
| VInt (z : Z)
| VBool (b : bool)
| VFloat (x : pyfloat)
| VComplex (re im : pyfloat)
| VStr (s : string)
| VNone
| VList (items : list Value)
| VTuple (items : list Value)
| VObject (type_name : string).

(** A computation that may call the interpreter: either finished, or a
    call of the built-in [eval(source, globals, locals)] and what follows
    from its outcome. *)
Inductive Calc (A : Type) : Type :=
| Done (a : A)
| CallEval (source : string)
       (globals : list (string * list (string * Builtin)))
       (locals : list (string * Builtin))
       (k : Outcome Value -> Calc A).
Arguments Done {A} a.
Arguments CallEval {A} source globals locals k.

(** The built-in [eval], as far as this code is concerned. *)
Definition Interpreter : Type :=
  string -> list (string * list (string * Builtin)) -> list (string * Builtin)
  -> Outcome Value.

Definition builtin_eval (source : string)
    (globals : list (string * list (string * Builtin)))
    (locals : list (string * Builtin)) : Calc (Outcome Value) :=
  CallEval source globals locals Done.

Fixpoint calc_bind {A B} (c : Calc A) (f : A -> Calc B) : Calc B :=
  match c with
  | Done a => f a
  | CallEval source globals locals k =>
      CallEval source globals locals (fun outcome => calc_bind (k outcome) f)
  end.

Fixpoint run {A} (interp : Interpreter) (c : Calc A) : A :=
  match c with
  | Done a => a
  | CallEval source globals locals k => run interp (k (interp source globals locals))
  end.

(** The strings handed to the interpreter, in order. *)
Fixpoint evaluated {A} (interp : Interpreter) (c : Calc A) : list string :=
  match c with
  | Done _ => []
  | CallEval source globals locals k =>
      source :: evaluated interp (k (interp source globals locals))
  end.

(** [round(result, 10) if isinstance(result, float) else result]. *)
Definition round_result (result : Value) : Value :=
  match result with
  | VFloat x => VFloat (round_float x 10)
  | _ => result
  end.

(** The [try] block returns from inside; [except Exception] turns what the
    evaluation raised into the returned text. *)
Definition calculate (expression : string) : Calc (Outcome Value) :=
  if has_forbidden expression then Done (Returned (VStr forbidden_message))
  else
    calc_bind (builtin_eval expression eval_globals safe_dict) (fun outcome =>
      match outcome with
      | Returned result => Done (Returned (round_result result))
      | Raised e =>
          if is_Exception (exc_class e)
          then Done (Returned (VStr (calculation_error e)))
          else Done (Raised e)
      end).

(** *** The [calculate] tool of [server.py] *)

(** [str(value)] inside the f-string is taken as given. *)
Variable py_str : Value -> string.

Definition server_calculate (expression : string) : Calc (Outcome string) :=
  calc_bind (calculate expression) (fun outcome =>
    match outcome with
    | Returned (VStr s) => Done (Returned s)
    | Returned result =>
        Done (Returned ("🧮 " +:+ expression +:+ " = " +:+ py_str result))
    | Raised e => Done (Raised e)
    end).

End Calculate.

Arguments VInt {pyfloat} z.
Arguments VBool {pyfloat} b.
Arguments VFloat {pyfloat} x.
Arguments VComplex {pyfloat} re im.
Arguments VStr {pyfloat} s.
Arguments VNone {pyfloat}.
Arguments VList {pyfloat} items.
Arguments VTuple {pyfloat} items.
Arguments VObject {pyfloat} type_name.
Arguments Done {pyfloat A} a.
Arguments CallEval {pyfloat A} source globals locals k.
Arguments builtin_eval {pyfloat} source globals locals.
Arguments calc_bind {pyfloat A B} c f.
Arguments run {pyfloat A} interp c.
Arguments evaluated {pyfloat A} interp c.
Arguments round_result {pyfloat} round_float result.
Arguments calculate {pyfloat} round_float expression.
Arguments server_calculate {pyfloat} round_float py_str expression.

(** What the caller of [calculate] tells apart: [isinstance(result, str)]. *)
Definition is_str {pyfloat} (v : Value pyfloat) : bool :=
  match v with VStr _ => true | _ => false end.

(** The numbers among the values. *)
Definition is_number {pyfloat} (v : Value pyfloat) : bool :=
  match v with
  | VInt _ | VBool _ | VFloat _ | VComplex _ _ => true
  | _ => false
  end.

(** ** The unit conversions of [unit_converter.py] *)

(** The conversion factors to the base unit of each kind, as the decimal
    literals of the source. *)
Definition LENGTH_CONVERSIONS : list (string * Q) :=
  [("meter", 1.0); ("meters", 1.0); ("m", 1.0); ("kilometer", 1000.0);
   ("kilometers", 1000.0); ("km", 1000.0); ("centimeter", 0.01);
   ("centimeters", 0.01); ("cm", 0.01); ("millimeter", 0.001);
   ("millimeters", 0.001); ("mm", 0.001); ("mile", 1609.34);
   ("miles", 1609.34); ("mi", 1609.34); ("yard", 0.9144);
   ("yards", 0.9144); ("yd", 0.9144); ("foot", 0.3048); ("feet", 0.3048);
   ("ft", 0.3048); ("inch", 0.0254); ("inches", 0.0254); ("in", 0.0254)]%Q.

Definition WEIGHT_CONVERSIONS : list (string * Q) :=
  [("kilogram", 1.0); ("kilograms", 1.0); ("kg", 1.0); ("gram", 0.001);
   ("grams", 0.001); ("g", 0.001); ("milligram", 0.000001);
   ("milligrams", 0.000001); ("mg", 0.000001); ("pound", 0.453592);
   ("pounds", 0.453592); ("lb", 0.453592); ("lbs", 0.453592);
   ("ounce", 0.0283495); ("ounces", 0.0283495); ("oz", 0.0283495);
   ("ton", 1000.0); ("tons", 1000.0); ("t", 1000.0)]%Q.

Definition TEMPERATURE_UNITS : list string :=
  ["celsius"; "fahrenheit"; "kelvin"; "c"; "f"; "k"].

Definition VOLUME_CONVERSIONS : list (string * Q) :=
  [("liter", 1.0); ("liters", 1.0); ("l", 1.0); ("milliliter", 0.001);
   ("milliliters", 0.001); ("ml", 0.001); ("gallon", 3.78541);
   ("gallons", 3.78541); ("gal", 3.78541); ("quart", 0.946353);
   ("quarts", 0.946353); ("qt", 0.946353); ("pint", 0.473176);
   ("pints", 0.473176); ("pt", 0.473176); ("cup", 0.236588);
   ("cups", 0.236588); ("fluid_ounce", 0.0295735);
   ("fluid_ounces", 0.0295735); ("fl_oz", 0.0295735)]%Q.

Definition TIME_CONVERSIONS : list (string * Q) :=
  [("second", 1.0); ("seconds", 1.0); ("s", 1.0); ("sec", 1.0);
   ("minute", 60.0); ("minutes", 60.0); ("min", 60.0); ("hour", 3600.0);
   ("hours", 3600.0); ("h", 3600.0); ("hr", 3600.0); ("day", 86400.0);
   ("days", 86400.0); ("d", 86400.0); ("week", 604800.0);
   ("weeks", 604800.0); ("wk", 604800.0)]%Q.

(** [key in table] for a dictionary. *)
Definition in_dict {V} (key : string) (table : list (string * V)) : bool :=
  match dict_get key table with Some _ => true | None => false end.

(** [except ValueError]: the class and its subclasses. *)
Definition is_ValueError (c : ExcClass) : bool :=
  match c with
  | ValueError | UnicodeEncodeError => true
  | _ => false
  end.

(** A computation without access to the outside world: its result or the
    exception it raises. *)
Definition and_then {A B} (o : Outcome A) (k : A -> Outcome B) : Outcome B :=
  match o with
  | Returned a => k a
  | Raised e => Raised e
  end.

(** The auto-detection of [convert_unit]: the first kind, in the order of
    the [if]/[elif] chain, that knows the lower-cased unit. *)
Definition detect_unit_type (from_unit_lower : string) : option string :=
  if in_dict from_unit_lower LENGTH_CONVERSIONS then Some "length"
  else if in_dict from_unit_lower WEIGHT_CONVERSIONS then Some "weight"
  else if existsb (String.eqb from_unit_lower) TEMPERATURE_UNITS then Some "temperature"
  else if in_dict from_unit_lower VOLUME_CONVERSIONS then Some "volume"
  else if in_dict from_unit_lower TIME_CONVERSIONS then Some "time"
  else None.

Definition icon_map : list (string * string) :=
  [("length", "üìè"); ("weight", "‚öñÔ∏è"); ("temperature", "üå°Ô∏è");
   ("volume", "üß™"); ("time", "‚è±Ô∏è")].

Definition default_icon : string := "üîÑ".

(** The numbers of the host language ([int] and [float]) with their
    arithmetic, [round(x, ndigits)] and their text in an f-string, and
    [str.lower], are taken as given.  An operation returns its result or
    the exception it raises ([int * float] overflows for a large [int]). *)
Class Host (number : Type) : Type := {
  float_literal : Q -> number;
  int_literal : Z -> number;
  py_add : number -> number -> Outcome number;
  py_sub : number -> number -> Outcome number;
  py_mul : number -> number -> Outcome number;
  py_truediv : number -> number -> Outcome number;
  py_round : number -> Z -> Outcome number;
  py_format : number -> string;
  str_lower : string -> string
}.

Section Convert.

Context {number : Type} {host : Host number}.

(** [convert_length], [convert_weight], [convert_volume] and
    [convert_time] are the same code up to the table and the word in the
    message. *)
Definition convert_by_table (kind : string) (table : list (string * Q))
    (value : number) (from_unit to_unit : string) : Outcome number :=
  let from_unit := str_lower from_unit in
  let to_unit := str_lower to_unit in
  match dict_get from_unit table with
  | None => Raised (mkExc ValueError ("Unknown " +:+ kind +:+ " unit: " +:+ from_unit))
  | Some from_factor =>
      match dict_get to_unit table with
      | None => Raised (mkExc ValueError ("Unknown " +:+ kind +:+ " unit: " +:+ to_unit))
      | Some to_factor =>
          and_then (py_mul value (float_literal from_factor)) (fun base =>
          and_then (py_truediv base (float_literal to_factor)) (fun result =>
          py_round result 6))
      end
  end.

Definition convert_length : number -> string -> string -> Outcome number :=
  convert_by_table "length" LENGTH_CONVERSIONS.

Definition convert_weight : number -> string -> string -> Outcome number :=
  convert_by_table "weight" WEIGHT_CONVERSIONS.

Definition convert_volume : number -> string -> string -> Outcome number :=
  convert_by_table "volume" VOLUME_CONVERSIONS.

Definition convert_time : number -> string -> string -> Outcome number :=
  convert_by_table "time" TIME_CONVERSIONS.

Definition unit_map : list (string * string) :=
  [("c", "celsius"); ("f", "fahrenheit"); ("k", "kelvin")].

Definition convert_temperature (value : number) (from_unit to_unit : string)
  : Outcome number :=
  let from_unit := str_lower from_unit in
  let to_unit := str_lower to_unit in
  let from_unit := default from_unit (dict_get from_unit unit_map) in
  let to_unit := default to_unit (dict_get to_unit unit_map) in
  if negb (existsb (String.eqb from_unit) ["celsius"; "fahrenheit"; "kelvin"])
  then Raised (mkExc ValueError ("Unknown temperature unit: " +:+ from_unit))
  else if negb (existsb (String.eqb to_unit) ["celsius"; "fahrenheit"; "kelvin"])
  then Raised (mkExc ValueError ("Unknown temperature unit: " +:+ to_unit))
  else
    and_then
      (if String.eqb from_unit "fahrenheit" then
         and_then (py_sub value (int_literal 32)) (fun d =>
         and_then (py_mul d (int_literal 5)) (fun p =>
         py_truediv p (int_literal 9)))
       else if String.eqb from_unit "kelvin" then py_sub value (float_literal 273.15)
       else Returned value) (fun celsius =>
    and_then
      (if String.eqb to_unit "fahrenheit" then
         and_then (py_mul celsius (int_literal 9)) (fun p =>
         and_then (py_truediv p (int_literal 5)) (fun q =>
         py_add q (int_literal 32)))
       else if String.eqb to_unit "kelvin" then py_add celsius (float_literal 273.15)
       else Returned celsius) (fun result =>
    py_round result 2)).

Definition converters
  : list (string * (number -> string -> string -> Outcome number)) :=
  [("length", convert_length); ("weight", convert_weight);
   ("temperature", convert_temperature); ("volume", convert_volume);
   ("time", convert_time)].

(** The module-level [convert_unit]; [unit_type] is [None] by default.
    The [try] block returns from inside; [except ValueError] and then
    [except Exception] turn what a converter raised into the returned
    text. *)
Definition convert_unit (value : number) (from_unit to_unit : string)
    (unit_type : option string) : Outcome string :=
  let from_unit_lower := str_lower from_unit in
  let body : Outcome string :=
    match
      match unit_type with
      | None => detect_unit_type from_unit_lower
      | Some given => Some given
      end
    with
    | None =>
        Returned ("‚ùå Could not detect unit type for '" +:+ from_unit +:+ "'")
    | Some unit_type =>
        match dict_get unit_type converters with
        | None => Returned ("‚ùå Unknown unit type: " +:+ unit_type)
        | Some converter =>
            and_then (converter value from_unit to_unit) (fun result =>
              let icon := default default_icon (dict_get unit_type icon_map) in
              Returned (icon +:+ " " +:+ py_format value +:+ " " +:+ from_unit
                        +:+ " = " +:+ py_format result +:+ " " +:+ to_unit))
        end
    end in
  match body with
  | Returned text => Returned text
  | Raised e =>
      if is_ValueError (exc_class e) then Returned ("‚ùå " +:+ exc_str e)
      else if is_Exception (exc_class e)
      then Returned ("‚ùå Conversion error: " +:+ exc_str e)
      else Raised e
  end.

End Convert.

End UnitConverter.

(** ** [text_analyzer.py]: the most common words *)

Module TextAnalyzer.

Definition stop_words : list string :=
  ["the"; "a"; "an"; "and"; "or"; "but"; "in"; "on"; "at"; "to"; "for"; "of";
   "with"; "is"; "was"; "are"; "were"].

(** [Counter(words)]: the distinct words in the order of their first
    occurrence, each with the number of its occurrences. *)
Fixpoint count_word (word : string) (counter : list (string * nat))
  : list (string * nat) :=
  match counter with
  | [] => [(word, 1)]
  | (word', k) :: rest =>
      if String.eqb word word' then (word', S k) :: rest
      else (word', k) :: count_word word rest
  end.

Definition Counter (words : list string) : list (string * nat) :=
  fold_left (fun counter word => count_word word counter) words [].

(** [sorted(items, key=itemgetter(1), reverse=True)]: by decreasing count;
    the sort is stable, so items of equal count keep their order. *)
Fixpoint insert_by_count (item : string * nat) (sorted : list (string * nat))
  : list (string * nat) :=
  match sorted with
  | [] => [item]
  | item' :: rest =>
      if snd item <? snd item' then item' :: insert_by_count item rest
      else item :: item' :: rest
  end.

Definition sorted_by_count (items : list (string * nat)) : list (string * nat) :=
  fold_right insert_by_count [] items.

(** [Counter.most_common(n)] for an integer [n]:
    [heapq.nlargest(n, items, key=itemgetter(1))], which is empty for
    [n <= 0] and otherwise the first [n] items of the sorted list. *)
Definition most_common (n : Z) (counter : list (string * nat)) : list (string * nat) :=
  if (n <=? 0)%Z then [] else take (Z.to_nat n) (sorted_by_count counter).

(** [words] is [self.words], the words extracted from the text. *)
Definition most_common_words (words : list string) (n : Z) : list (string * nat) :=
  let filtered_words :=
    List.filter (fun word => negb (existsb (String.eqb word) stop_words)) words in
  most_common n (Counter filtered_words).

End TextAnalyzer.

(** ** The vocabulary of the design document *)

Module Design.

Import Secrets GeneratorTools.

(** Exchange of two positions of a buffer; nothing changes when one of
    them lies outside. *)
Definition exchange {A} (buf : list A) (i j : nat) : list A :=
  match buf !! i, buf !! j with
  | Some x, Some y => <[i := y]> (<[j := x]> buf)
  | _, _ => buf
  end.

(** Fisher–Yates as the design document words it: from index [i] down to 1,
    each position is exchanged with an index drawn by the uniform-index
    primitive among the earlier-or-equal ones. *)
Fixpoint fisher_yates {A} (i : nat) (buf : list A) : M (list A) :=
  match i with
  | O => ret buf
  | S i' =>
      j <- randbelow (i + 1) ;;
      fisher_yates i' (exchange buf i j)
  end.

(** The pass replayed on a given list of draws, and the draws that a world
    supplies to a pass that starts at index [i]. *)
Fixpoint fisher_yates_on {A} (i : nat) (draws : list nat) (buf : list A) : list A :=
  match i, draws with
  | S i', j :: rest => fisher_yates_on i' rest (exchange buf i j)
  | _, _ => buf
  end.

Fixpoint draws_of (i : nat) (w : World) : list nat :=
  match i with
  | O => []
  | S i' => N.to_nat (read w mod N.of_nat (i + 1)) :: draws_of i' (advance w)
  end.

(** One draw per index from [i] down to 1, each among the earlier-or-equal
    positions. *)
Fixpoint bounded_draws (i : nat) (draws : list nat) : Prop :=
  match i, draws with
  | O, [] => True
  | S i', j :: rest => j <= i /\ bounded_draws i' rest
  | _, _ => False
  end.

(** Membership of a character in a character class. *)
Definition in_class (c : ascii) (class : string) : bool :=
  existsb (Ascii.eqb c) (list_ascii_of_string class).

Definition count_class (class : string) (password : string) : nat :=
  List.length (List.filter (fun c => in_class c class) (list_ascii_of_string password)).

(** A [PasswordSpec]: the length and the four class flags. *)
Record PasswordSpec : Type := {
  spec_length : Z;
  uppercase : bool;
  lowercase : bool;
  digit : bool;
  symbol : bool
}.

Definition valid_spec (s : PasswordSpec) : bool :=
  (8 <=? spec_length s)%Z && (uppercase s || lowercase s || digit s || symbol s).

(** The four classes with their flags. *)
Definition classes (s : PasswordSpec) : list (bool * string) :=
  [(uppercase s, ascii_uppercase); (lowercase s, ascii_lowercase);
   (digit s, digits); (symbol s, symbols)].

Definition generatePassword (s : PasswordSpec) : M string :=
  generate_password (spec_length s) (uppercase s) (lowercase s) (digit s) (symbol s).

Definition is_lower_hex (c : ascii) : bool := in_class c "0123456789abcdef".

(** Width in bytes of the four digests. *)
Definition digest_size (algorithm : string) : nat :=
  if String.eqb algorithm "md5" then 16
  else if String.eqb algorithm "sha1" then 20
  else if String.eqb algorithm "sha256" then 32
  else if String.eqb algorithm "sha512" then 64
  else 0.

Definition supported_algorithms : list string := ["md5"; "sha1"; "sha256"; "sha512"].

(** The code points of an ASCII literal. *)
Definition text_of (s : string) : list Z :=
  map (fun c => Z.of_nat (nat_of_ascii c)) (list_ascii_of_string s).

(** The allow-list of the expression evaluator. *)
Definition allowed_constants : list string := ["pi"; "e"].
Definition allowed_functions : list string :=
  ["abs"; "round"; "min"; "max"; "sum"; "pow"; "sqrt"; "sin"; "cos"; "tan";
   "log"; "log10"; "exp"; "ceil"; "floor"].
Definition allow_list : list string := (allowed_constants ++ allowed_functions)%list.

Definition is_letter (c : ascii) : bool :=
  let n := nat_of_ascii c in
  ((65 <=? n) && (n <=? 90)) || ((97 <=? n) && (n <=? 122)).
Definition is_digit (c : ascii) : bool :=
  let n := nat_of_ascii c in (48 <=? n) && (n <=? 57).
Definition is_ident_start (c : ascii) : bool := is_letter c || Ascii.eqb c "_".
Definition is_ident_char (c : ascii) : bool := is_ident_start c || is_digit c.

(** The identifiers of an expression: the maximal runs of letters, digits
    and underscores that start with a letter or an underscore; a run that
    starts with a digit is a numeric literal. *)
Inductive Lexing : Type :=
| Between
| InIdentifier (so_far : string)
| InNumber.

Fixpoint identifiers_from (st : Lexing) (s : string) : list string :=
  match s with
  | EmptyString =>
      match st with InIdentifier so_far => [so_far] | _ => [] end
  | String c rest =>
      match st with
      | InIdentifier so_far =>
          if is_ident_char c
          then identifiers_from (InIdentifier (so_far +:+ String c "")) rest
          else so_far :: identifiers_from Between rest
      | InNumber =>
          if is_ident_char c || Ascii.eqb c "."
          then identifiers_from InNumber rest
          else identifiers_from Between rest
      | Between =>
          if is_ident_start c then identifiers_from (InIdentifier (String c "")) rest
          else if is_digit c then identifiers_from InNumber rest
          else identifiers_from Between rest
      end
  end.

Definition identifiers (expression : string) : list string :=
  identifiers_from Between expression.

Definition allowed (name : string) : bool := existsb (String.eqb name) allow_list.

Definition has_disallowed_identifier (expression : string) : bool :=
  existsb (fun name => negb (allowed name)) (identifiers expression).

End Design.

(** ** A reference run of the interpreter

    The statements about [calculate] hold for every interpreter.  To run
    the model on concrete expressions, this instance takes the rationals
    for the floats and lists what CPython 3.11 answers to
    [eval(source, {"__builtins__": {}}, safe_dict)] on a few sources. *)

Module Reference.

Import UnitConverter.

(** [round(x, ndigits)] on a rational: to the nearest multiple of
    [10 ^ -ndigits], ties to the even one. *)
Definition round_rational (x : Q) (ndigits : Z) : Q :=
  let scale := (10 ^ ndigits)%Z in
  let num := (Qnum x * scale)%Z in
  let den := Z.pos (Qden x) in
  let q := (num / den)%Z in
  let r := (num mod den)%Z in
  let q' :=
    if (2 * r <? den)%Z then q
    else if (den <? 2 * r)%Z then (q + 1)%Z
    else if Z.even q then q else (q + 1)%Z in
  Qred (Qmake q' (Z.to_pos scale)).

Definition cpython_answers : list (string * Outcome (Value Q)) :=
  [("2 + 3", Returned (VInt 5));
   ("sqrt(144) + pow(2, 3)", Returned (VFloat (20 # 1)));
   ("1 or foo", Returned (VInt 1));
   ("[1, 2]", Returned (VList [VInt 1; VInt 2]));
   ("'hi'", Returned (VStr "hi"));
   ("None", Returned VNone);
   ("foo", Raised (mkExc NameError "name 'foo' is not defined"));
   ("sqrt(-1)", Raised (mkExc ValueError "math domain error"));
   ("log(0)", Raised (mkExc ValueError "math domain error"));
   ("1/0", Raised (mkExc ZeroDivisionError "division by zero"));
   ("2 **", Raised (mkExc SyntaxError "invalid syntax (<string>, line 1)"))].

(** Outside the list the instance answers with a syntax error; nothing
    below looks there. *)
Definition cpython : Interpreter Q :=
  fun source _ _ =>
    match dict_get source cpython_answers with
    | Some outcome => outcome
    | None => Raised (mkExc SyntaxError "invalid syntax (<string>, line 1)")
    end.

(** [str(value)] where the examples need it. *)
Definition str_value (v : Value Q) : string :=
  match v with
  | VInt z => str_int z
  | VBool b => if b then "True" else "False"
  | VStr s => s
  | VNone => "None"
  | VList [VInt a; VInt b] => "[" +:+ str_int a +:+ ", " +:+ str_int b +:+ "]"
  | _ => "<object>"
  end.

(** A specification and a tape for the examples. *)
Definition example_spec : Design.PasswordSpec :=
  {| Design.spec_length := 12; Design.uppercase := true; Design.lowercase := false;
     Design.digit := true; Design.symbol := false |}.


Definition tape0 : World := mkWorld (fun i => N.of_nat (7 * i + 3)) 0.

End Reference.

(** ** Runs that return *)

(** [returns m w Q]: from the world [w] the computation [m] returns, with a
    value and a world that satisfy [Q]. *)
Definition returns {A} (m : M A) (w : World) (Q : A -> World -> Prop) : Prop :=
  exists a w', m w = (Returned a, w') /\ Q a w'.

(** The world after [k] more reads. *)
Definition after (k : nat) (w : World) : World := mkWorld (tape w) (pos w + k).

(** A seed: nothing for a class left out, one character of the class
    otherwise. *)
Definition seed_of (selected : bool) (class : string) (extra : list ascii) : Prop :=
  Forall (fun c => Design.in_class c class = true) extra
  /\ length extra = (if selected then 1 else 0).

(** The password before the shuffle: one seed per class, then characters of
    the pool, [length] characters in all. *)
Definition seeded_buffer (length : Z) (iu il id isy : bool) (p : list ascii) : Prop :=
  exists s1 s2 s3 s4 rest,
    p = (s1 ++ s2 ++ s3 ++ s4 ++ rest)%list
    /\ seed_of iu GeneratorTools.ascii_uppercase s1
    /\ seed_of il GeneratorTools.ascii_lowercase s2
    /\ seed_of id GeneratorTools.digits s3
    /\ seed_of isy GeneratorTools.symbols s4
    /\ Forall (fun c => Design.in_class c (GeneratorTools.character_pool iu il id isy) = true) rest
    /\ List.length p = Z.to_nat length.

(** ** Batches *)

(** The line recorded for call number [i + 1]. *)
Definition line_of (i : Z) (outcome : Outcome string) : string :=
  match outcome with
  | Returned item => GeneratorTools.item_line i item
  | Raised e => GeneratorTools.error_line i e
  end.

(** The world in which call number [k + 1] of a batch starts: each call
    starts where the one before it stopped. *)
Fixpoint world_at (generator : M string) (k : nat) (w : World) : World :=
  match k with
  | O => w
  | S k' => world_at generator k' (snd (generator w))
  end.

(** One line per call, in call order. *)
Definition batch_lines (generator : M string) (count : Z) (w : World) : list string :=
  map (fun k => line_of (Z.of_nat k) (fst (generator (world_at generator k w))))
      (seq 0 (Z.to_nat count)).

Definition raises_only_Exception {A} (m : M A) : Prop :=
  forall w e w', m w = (Raised e, w') -> is_Exception (exc_class e) = true.

(** A generator whose third call fails, for the examples. *)
Definition third_call_fails : M string :=
  fun w =>
    if pos w =? 2 then (Raised (mkExc ValueError "invalid arguments"), advance w)
    else (Returned "ok", advance w).

(** ** Failing closed *)

(** A computation fails before any evaluation when it ends in an error
    text without a call of the interpreter. *)
Definition fails_before_evaluation {pyfloat}
    (interp : UnitConverter.Interpreter pyfloat)
    (c : UnitConverter.Calc pyfloat (Outcome (UnitConverter.Value pyfloat))) : Prop :=
  UnitConverter.evaluated interp c = []
  /\ exists msg, UnitConverter.run interp c = Returned (UnitConverter.VStr msg).

(** ** More vocabulary for batches *)

(** The first line of what [generate_multiple] returns. *)
Definition batch_header (generator_type : string) (count : Z) : string :=
  match Text.dict_get generator_type GeneratorTools.icon_map with
  | Some i => i
  | None => "🔧"
  end +:+ " Generated " +:+ Text.str_int count +:+ " "
      +:+ Text.upper generator_type +:+ "(s):".

Definition invalid_generator_type : string :=
  "❌ Invalid generator type. Choose from: uuid, password, api_key, token, pin".

(** A generator bound to its arguments either fails the same way in every
    world, before it draws anything, or returns in every world. *)
Definition validates_first (m : M string) : Prop :=
  (exists e, forall w, m w = (Raised e, w))
  \/ (forall w, exists item w', m w = (Returned item, w')).

(** ** The canonical text of a UUID *)

(** 32 lower-case hexadecimal digits in groups of 8, 4, 4, 4 and 12 with
    hyphens between them; the first digit of the third group is the
    version, the first digit of the fourth group is 8, 9, a or b. *)
Definition canonical_uuid (version : Z) (u : string) : Prop :=
  exists ds : list ascii,
    length ds = 32
    /\ Forall (fun c => Design.is_lower_hex c = true) ds
    /\ u = string_of_list_ascii
             (take 8 ds ++ "-"%char :: take 4 (drop 8 ds) ++ "-"%char
                :: take 4 (drop 12 ds) ++ "-"%char :: take 4 (drop 16 ds)
                ++ "-"%char :: drop 20 ds)%list
    /\ ds !! 12 = Some (Text.hex_digit version)
    /\ exists variant, (8 <= variant <= 11)%Z /\ ds !! 16 = Some (Text.hex_digit variant).

(** ** The generator tools of [server.py] *)

Module Server.

Import GeneratorTools.

Definition generate_uuid (version count : Z) : M string :=
  if (count =? 1)%Z then
    u <- GeneratorTools.generate_uuid version ;; ret ("🔑 UUID: " +:+ u)
  else generate_multiple "uuid" count [("version", AInt version)].

Definition generate_password (length count : Z)
    (include_uppercase include_lowercase include_digits include_symbols : bool)
  : M string :=
  if (count =? 1)%Z then
    pwd <- GeneratorTools.generate_password length include_uppercase
             include_lowercase include_digits include_symbols ;;
    ret ("🔐 Password: " +:+ pwd)
  else
    generate_multiple "password" count
      [("length", AInt length);
       ("include_uppercase", ABool include_uppercase);
       ("include_lowercase", ABool include_lowercase);
       ("include_digits", ABool include_digits);
       ("include_symbols", ABool include_symbols)].

Definition generate_api_key (length count : Z) : M string :=
  if (count =? 1)%Z then
    key <- GeneratorTools.generate_api_key length ;; ret ("🎫 API Key: " +:+ key)
  else generate_multiple "api_key" count [("length", AInt length)].

Definition generate_token (length count : Z) : M string :=
  if (count =? 1)%Z then
    token <- GeneratorTools.generate_token length ;; ret ("🎟️ Token: " +:+ token)
  else generate_multiple "token" count [("length", AInt length)].

Definition generate_pin (length count : Z) : M string :=
  if (count =? 1)%Z then
    pin <- GeneratorTools.generate_pin length ;; ret ("🔢 PIN: " +:+ pin)
  else generate_multiple "pin" count [("length", AInt length)].

End Server.

(** A computation raises in a world. *)
Definition raises {A} (m : M A) (w : World) : Prop :=
  exists e w', m w = (Raised e, w').

(** ** Units and their kinds *)

Definition unit_kinds : list string :=
  ["length"; "weight"; "temperature"; "volume"; "time"].

(** The unit names a kind knows. *)
Definition units_of (kind : string) : list string :=
  if String.eqb kind "length" then map fst UnitConverter.LENGTH_CONVERSIONS
  else if String.eqb kind "weight" then map fst UnitConverter.WEIGHT_CONVERSIONS
  else if String.eqb kind "temperature" then UnitConverter.TEMPERATURE_UNITS
  else if String.eqb kind "volume" then map fst UnitConverter.VOLUME_CONVERSIONS
  else if String.eqb kind "time" then map fst UnitConverter.TIME_CONVERSIONS
  else [].

(** The kind a call of [convert_unit] works with: the one given, or the
    one detected from the source unit. *)
Definition kind_in_use (unit_type : option string) (from_unit_lower kind : string)
  : Prop :=
  In kind unit_kinds /\
  (unit_type = Some kind \/
   (unit_type = None /\ In from_unit_lower (units_of kind))).

(** An operation that raises nothing outside [Exception]. *)
Definition only_Exception {A} (o : Outcome A) : Prop :=
  match o with
  | Returned _ => True
  | Raised e => is_Exception (exc_class e) = true
  end.

(** To run the conversions: exact rational arithmetic in the place of the
    host's numbers.  It raises on a division by zero only. *)
Module ExactNumbers.

Definition truediv (a b : Q) : Outcome Q :=
  if Qeq_bool b 0 then Raised (mkExc ZeroDivisionError "float division by zero")
  else Returned (Qred (a / b)).

(** The text of a rational, as a fraction. *)
Definition format (x : Q) : string :=
  Text.str_int (Qnum x) +:+ "/" +:+ Text.str_int (Z.pos (Qden x)).

Definition host : UnitConverter.Host Q := {|
  UnitConverter.float_literal := fun q => q;
  UnitConverter.int_literal := inject_Z;
  UnitConverter.py_add := fun a b => Returned (Qred (a + b));
  UnitConverter.py_sub := fun a b => Returned (Qred (a - b));
  UnitConverter.py_mul := fun a b => Returned (Qred (a * b));
  UnitConverter.py_truediv := truediv;
  UnitConverter.py_round := fun x ndigits => Returned (Reference.round_rational x ndigits);
  UnitConverter.py_format := format;
  UnitConverter.str_lower := Text.lower
|}.

Definition convert_unit : Q -> string -> string -> option string -> Outcome string :=
  @UnitConverter.convert_unit Q host.

End ExactNumbers.

(** ** Word counts *)

(** How often a word occurs in a list of words. *)
Definition occurrences (word : string) (words : list string) : nat :=
  length (List.filter (String.eqb word) words).

Definition is_stop_word (word : string) : bool :=
  existsb (String.eqb word) TextAnalyzer.stop_words.

(** The count a counter holds for a word, 0 if it holds none. *)
Definition count_of (word : string) (counter : list (string * nat)) : nat :=
  match find (fun item => String.eqb word (fst item)) counter with
  | Some item => snd item
  | None => 0
  end.

(** A counter is well formed: its words are distinct and no count is 0. *)
Definition counter_ok (counter : list (string * nat)) : Prop :=
  NoDup (map fst counter) /\ Forall (fun item => 1 <= snd item) counter.

Definition by_decreasing_count (a b : string * nat) : Prop := snd b <= snd a.

(** * Properties *)

(** ** The model at work *)

Example range_examples :
  range 3 = [0; 1; 2]%Z /\ range (-1) = []
  /\ range3 4 0 (-1) = [4; 3; 2; 1]%Z /\ range3 (-1) 0 (-1) = []
  /\ range3 10 1 (-4) = [10; 6; 2]%Z.
Proof. repeat split; reflexivity. Qed.

Example digest_examples :
  hex (Hashlib.md5 (Design.text_of "abc")) = "900150983cd24fb0d6963f7d28e17f72"
  /\ hex (Hashlib.sha1 (Design.text_of "abc"))
     = "a9993e364706816aba3e25717850c26c9cd0d89d"
  /\ hex (Hashlib.sha256 [])
     = "e3b0c44298fc1c149afbf4c8996fb92427ae41e4649b934ca495991b7852b855"
  /\ hex (Hashlib.sha512 (Design.text_of "abc"))
     = "ddaf35a193617abacc417349ae20413112e6fa4e89a97ea20a9eeee64b55d39a"
       +:+ "2192992a274fc1a836ba3c23a3feebbd454d4423643ce80e2a9ac94fa54ca49f".
Proof. repeat split; vm_compute; reflexivity. Qed.

Example encode_examples :
  Hashlib.encode [104; 233; 8364; 128273]%Z
  = Returned [104; 195; 169; 226; 130; 172; 240; 159; 148; 145]%Z
  /\ Hashlib.encode [72; 0xdfff; 33]%Z
     = Raised (mkExc UnicodeEncodeError
         "'utf-8' codec can't encode character '\udfff' in position 1: surrogates not allowed").
Proof. split; reflexivity. Qed.

Example uuid4_example :
  fst (GeneratorTools.uuid4 Reference.tape0)
  = Returned "030a1118-1f26-4d34-bb42-4950575e656c".
Proof. vm_compute. reflexivity. Qed.

Example shuffle_example :
  fst (GeneratorTools.shuffle (list_ascii_of_string "abcde") Reference.tape0)
  = Returned (list_ascii_of_string "baecd")
  /\ Design.draws_of 4 Reference.tape0 = [3; 2; 2; 0].
Proof. split; vm_compute; reflexivity. Qed.

Example generate_password_example :
  fst (GeneratorTools.fill_password 12 true false true false
         (GeneratorTools.character_pool true false true false) Reference.tape0)
  = Returned (list_ascii_of_string "D0RY5CJQX4BI")
  /\ fst (GeneratorTools.generate_password 12 true false true false Reference.tape0)
     = Returned "R5XC4BQID0JY".
Proof. split; vm_compute; reflexivity. Qed.

Example generate_multiple_example :
  fst (GeneratorTools.generate_multiple "pin" 2
         [("length", GeneratorTools.AInt 4)] Reference.tape0)
  = Returned ("🔢 Generated 2 PIN(s):" +:+ nl +:+ "1. 3074" +:+ nl +:+ "2. 1852")
  /\ fst (GeneratorTools.generate_multiple "pin" 2
            [("length", GeneratorTools.AInt 3)] Reference.tape0)
     = Returned ("🔢 Generated 2 PIN(s):" +:+ nl
                 +:+ "1. Error: PIN length must be at least 4 digits" +:+ nl
                 +:+ "2. Error: PIN length must be at least 4 digits")
  /\ fst (GeneratorTools.generate_multiple "uuid" 1
            [("length", GeneratorTools.AInt 3)] Reference.tape0)
     = Returned ("🔑 Generated 1 UUID(s):" +:+ nl
                 +:+ "1. Error: GeneratorTools.generate_uuid() got an unexpected "
                 +:+ "keyword argument 'length'")
  /\ fst (GeneratorTools.generate_multiple "key" 2 [] Reference.tape0)
     = Returned "❌ Invalid generator type. Choose from: uuid, password, api_key, token, pin".
Proof. repeat split; vm_compute; reflexivity. Qed.

Example identifiers_example :
  Design.identifiers "sqrt(144) + pow(2, 3) * 1e5 - x_1.real"
  = ["sqrt"; "pow"; "x_1"; "real"]
  /\ Design.identifiers "__import__('os')" = ["__import__"; "os"].
Proof. split; reflexivity. Qed.

(** ** The monad *)

Lemma returns_ret {A} (a : A) w (Q : A -> World -> Prop) :
  Q a w -> returns (ret a) w Q.
Proof. intros H. exists a, w. split; [reflexivity | exact H]. Qed.

Lemma returns_bind {A B} (m : M A) (k : A -> M B) w (Q : B -> World -> Prop) :
  returns m w (fun a w' => returns (k a) w' Q) -> returns (x <- m ;; k x) w Q.
Proof.
  intros (a & w' & Hm & b & w'' & Hk & HQ).
  exists b, w''. split; [| exact HQ].
  unfold bind. rewrite Hm. exact Hk.
Qed.

Lemma returns_weaken {A} (m : M A) w (Q Q' : A -> World -> Prop) :
  (forall a w', Q a w' -> Q' a w') -> returns m w Q -> returns m w Q'.
Proof. intros HQ (a & w' & Hm & H). exists a, w'. auto. Qed.

Lemma after_0 w : after 0 w = w.
Proof. destruct w as [t p]. unfold after. simpl. f_equal. lia. Qed.

Lemma after_advance k w : after k (advance w) = after (S k) w.
Proof. unfold after, advance. simpl. f_equal. lia. Qed.

Lemma advance_after k w : advance (after k w) = after (S k) w.
Proof. unfold after, advance. simpl. f_equal. lia. Qed.

Lemma after_after j k w : after j (after k w) = after (k + j) w.
Proof. unfold after. simpl. f_equal. lia. Qed.

(** A loop keeps an invariant that may mention the items already visited. *)
Lemma returns_for_each {A B} (I : list A -> B -> World -> Prop)
    (body : A -> B -> M B) (xs : list A) :
  forall (seen : list A) (acc : B) (w : World),
    I seen acc w ->
    (forall pre x acc' w', In x xs ->
       I pre acc' w' -> returns (body x acc') w' (I (pre ++ [x])%list)) ->
    returns (for_each xs body acc) w (I (seen ++ xs)%list).
Proof.
  induction xs as [| x xs IH]; intros seen acc w Hinit Hstep.
  - rewrite app_nil_r. apply returns_ret. exact Hinit.
  - simpl. apply returns_bind.
    eapply returns_weaken; [| apply (Hstep seen x acc w); [left; reflexivity | exact Hinit]].
    intros acc1 w1 H1.
    replace (seen ++ x :: xs)%list with ((seen ++ [x]) ++ xs)%list
      by (rewrite <- app_assoc; reflexivity).
    apply IH; [exact H1 |].
    intros pre y acc' w' Hy. apply Hstep. right. exact Hy.
Qed.

(** ** [range] *)

Lemma range_seq (n : Z) : range n = map Z.of_nat (seq 0 (Z.to_nat n)).
Proof.
  unfold range, range3. simpl.
  replace (n - 0 + 1 - 1)%Z with n by lia. rewrite Z.div_1_r.
  apply map_ext. intros k. lia.
Qed.

Lemma length_range (n : Z) : length (range n) = Z.to_nat n.
Proof. rewrite range_seq, length_map, length_seq. reflexivity. Qed.

Lemma countdown_seq (m : nat) :
  map (fun k => (Z.of_nat m + Z.of_nat k * -1)%Z) (seq 0 m)
  = map Z.of_nat (rev (seq 1 m)).
Proof.
  induction m as [| m IH]; [reflexivity |].
  change (seq 0 (S m)) with (0 :: seq 1 m).
  rewrite (seq_S m 1), rev_app_distr. simpl rev. simpl app.
  rewrite !map_cons, <- IH, <- seq_shift, map_map.
  apply f_equal2; [lia |].
  apply map_ext. intros k. lia.
Qed.

(** [range(n - 1, 0, -1)] runs from the last index of an [n]-element list
    down to 1. *)
Lemma range3_down (n : nat) :
  range3 (Z.of_nat n - 1) 0 (-1) = map Z.of_nat (rev (seq 1 (n - 1))).
Proof.
  unfold range3. simpl.
  replace (Z.of_nat n - 1 - 0 - -1 - 1)%Z with (Z.of_nat n - 1)%Z by lia.
  rewrite Z.div_1_r.
  destruct n as [| n]; [reflexivity |].
  replace (Z.to_nat (Z.of_nat (S n) - 1)) with n by lia.
  replace (S n - 1) with n by lia.
  rewrite <- countdown_seq. apply map_ext. intros k. lia.
Qed.

(** ** [secrets] *)

Import Secrets GeneratorTools Design.

Lemma randbelow_eq (n : nat) (w : World) :
  0 < n ->
  randbelow n w = (Returned (N.to_nat (read w mod N.of_nat n)), advance w)
  /\ N.to_nat (read w mod N.of_nat n) < n.
Proof.
  intros Hn. destruct n as [| n]; [lia |]. split; [reflexivity |].
  assert (read w mod N.of_nat (S n) < N.of_nat (S n))%N
    by (apply N.mod_lt; lia).
  lia.
Qed.

Lemma returns_randbelow (n : nat) (w : World) :
  0 < n -> returns (randbelow n) w (fun j w' => j < n /\ w' = advance w).
Proof.
  intros Hn. destruct (randbelow_eq n w Hn) as [E Hlt].
  eexists _, _. split; [exact E |]. split; [exact Hlt | reflexivity].
Qed.

Lemma get_some (s : string) (i : nat) :
  i < String.length s -> exists c, String.get i s = Some c.
Proof.
  revert i. induction s as [| a s IH]; intros i Hi; simpl in Hi; [lia |].
  destruct i as [| i]; simpl; [eauto |]. apply IH. lia.
Qed.

Lemma in_class_get (s : string) (i : nat) (c : ascii) :
  String.get i s = Some c -> in_class c s = true.
Proof.
  unfold in_class. revert i.
  induction s as [| a s IH]; intros i H; simpl in *; [discriminate |].
  destruct i as [| i].
  - injection H as ->. rewrite Ascii.eqb_refl. reflexivity.
  - rewrite (IH i H). apply orb_true_r.
Qed.

Lemma in_class_app (c : ascii) (a b : string) :
  in_class c (a +:+ b) = in_class c a || in_class c b.
Proof.
  unfold in_class. induction a as [| x a IH]; simpl; [reflexivity |].
  rewrite IH. apply orb_assoc.
Qed.

Lemma in_class_In (c : ascii) (class : string) :
  in_class c class = true <-> In c (list_ascii_of_string class).
Proof.
  unfold in_class. rewrite existsb_exists. split.
  - intros (x & Hx & E). apply Ascii.eqb_eq in E. subst. exact Hx.
  - intros H. exists c. split; [exact H | apply Ascii.eqb_refl].
Qed.

Lemma returns_choice (seq : string) (w : World) :
  seq <> "" ->
  returns (choice seq) w (fun c w' => in_class c seq = true /\ w' = advance w).
Proof.
  intros Hne. unfold choice.
  destruct (String.length seq) as [| k] eqn:Hlen.
  { destruct seq; [congruence | discriminate]. }
  rewrite <- Hlen. apply returns_bind.
  eapply returns_weaken; [| apply returns_randbelow; lia].
  intros j w' [Hj ->].
  destruct (get_some seq j Hj) as [c Hc]. rewrite Hc.
  apply returns_ret. split; [eapply in_class_get; eassumption | reflexivity].
Qed.

(** ** The password before the shuffle *)

Lemma returns_append_choice (selected : bool) (class : string)
    (password : list ascii) (w : World) :
  class <> "" ->
  returns (append_choice selected class password) w (fun p w' =>
    exists extra,
      p = (password ++ extra)%list
      /\ Forall (fun c => in_class c class = true) extra
      /\ length extra = (if selected then 1 else 0)
      /\ w' = after (length extra) w).
Proof.
  intros Hne. unfold append_choice. destruct selected.
  - apply returns_bind.
    eapply returns_weaken; [| apply returns_choice; exact Hne].
    intros c w' [Hc ->]. apply returns_ret.
    exists [c]. repeat split; [constructor; [exact Hc | constructor] |].
    simpl. rewrite <- after_advance, after_0. reflexivity.
  - apply returns_ret. exists []. rewrite app_nil_r.
    repeat split; [constructor |]. simpl. rewrite after_0. reflexivity.
Qed.

Lemma returns_extend_choices (pool : string) (n : Z) (buf : list ascii) (w : World) :
  pool <> "" ->
  returns (extend_choices pool n buf) w (fun p w' =>
    exists extra,
      p = (buf ++ extra)%list
      /\ Forall (fun c => in_class c pool = true) extra
      /\ length extra = Z.to_nat n
      /\ w' = after (Z.to_nat n) w).
Proof.
  intros Hne. unfold extend_choices.
  pose (I := fun (seen : list Z) (acc : list ascii) (w' : World) =>
    exists extra,
      acc = (buf ++ extra)%list
      /\ Forall (fun c => in_class c pool = true) extra
      /\ length extra = length seen
      /\ w' = after (length seen) w).
  eapply returns_weaken;
    [| apply (returns_for_each I _ (range n) [] buf w)].
  - intros p w' (extra & -> & Hall & Hlen & ->).
    simpl in Hlen. rewrite length_range in Hlen. simpl. rewrite length_range.
    exists extra. auto.
  - exists []. rewrite app_nil_r. simpl. rewrite after_0.
    repeat split. constructor.
  - intros pre x acc' w' _ (extra & -> & Hall & Hlen & ->).
    apply returns_bind.
    eapply returns_weaken; [| apply returns_choice; exact Hne].
    intros c w'' [Hc ->]. apply returns_ret.
    exists (extra ++ [c])%list. rewrite app_assoc, !length_app. simpl.
    repeat split.
    + apply Forall_app. split; [exact Hall | constructor; [exact Hc | constructor]].
    + lia.
    + rewrite advance_after. f_equal. lia.
Qed.

(** ** The shuffle *)

Lemma exchange_length {A} (buf : list A) (i j : nat) :
  length (exchange buf i j) = length buf.
Proof.
  unfold exchange. destruct (buf !! i), (buf !! j); try reflexivity.
  rewrite !length_insert. reflexivity.
Qed.

Lemma exchange_perm {A} (buf : list A) (i j : nat) : exchange buf i j ≡ₚ buf.
Proof.
  unfold exchange.
  destruct (buf !! i) as [x |] eqn:Hi, (buf !! j) as [y |] eqn:Hj; try reflexivity.
  apply Permutation_insert_swap; assumption.
Qed.

(** Within the buffer, the tuple assignment of the source is the exchange. *)
Lemma swap_exchange {A} (buf : list A) (i j : nat) (w : World) :
  i < length buf -> j < length buf ->
  swap buf i j w = (Returned (exchange buf i j), w).
Proof.
  intros Hi Hj. unfold swap, exchange.
  destruct (lookup_lt_is_Some_2 buf i Hi) as [x Hx].
  destruct (lookup_lt_is_Some_2 buf j Hj) as [y Hy].
  rewrite Hx, Hy. unfold ret. do 2 f_equal.
  destruct (decide (i = j)) as [-> | Hne].
  - congruence.
  - apply list_insert_insert_ne. congruence.
Qed.

Lemma rev_seq_S (m : nat) : rev (seq 1 (S m)) = S m :: rev (seq 1 m).
Proof. rewrite (seq_S m 1), rev_app_distr. reflexivity. Qed.

(** The loop of the source, written over its index list, is the recursion
    of the design document. *)
Lemma shuffle_loop_fisher_yates (m : nat) :
  forall (buf : list ascii) (w : World),
    m <= length buf - 1 ->
    for_each (map Z.of_nat (rev (seq 1 m)))
      (fun i shuffled =>
         j <- randbelow (Z.to_nat (i + 1)) ;; swap shuffled (Z.to_nat i) j)
      buf w
    = fisher_yates m buf w.
Proof.
  induction m as [| m IH]; intros buf w Hm; [reflexivity |].
  rewrite rev_seq_S, map_cons. simpl for_each. simpl fisher_yates.
  replace (Z.to_nat (Z.of_nat (S m) + 1)) with (S m + 1) by lia.
  rewrite Nat2Z.id. unfold bind at 1 2 4.
  destruct (randbelow_eq (S m + 1) w ltac:(lia)) as [E Hj]. rewrite E.
  rewrite swap_exchange by lia.
  apply IH. rewrite exchange_length. lia.
Qed.

Lemma shuffle_fisher_yates (password : list ascii) (w : World) :
  shuffle password w = fisher_yates (length password - 1) password w.
Proof.
  unfold shuffle. rewrite range3_down.
  apply shuffle_loop_fisher_yates. lia.
Qed.

Lemma fisher_yates_returns {A} (m : nat) :
  forall (buf : list A) (w : World),
    exists out, fisher_yates m buf w = (Returned out, after m w) /\ out ≡ₚ buf.
Proof.
  induction m as [| m IH]; intros buf w.
  - exists buf. rewrite after_0. split; reflexivity.
  - cbn [fisher_yates]. unfold bind.
    destruct (randbelow_eq (S m + 1) w ltac:(lia)) as [E _]. rewrite E.
    destruct (IH (exchange buf (S m) (N.to_nat (read w mod N.of_nat (S m + 1))))
                 (advance w)) as (out & Hout & Hperm).
    exists out. rewrite Hout, after_advance. split; [reflexivity |].
    rewrite Hperm. apply exchange_perm.
Qed.

Lemma returns_shuffle (password : list ascii) (w : World) :
  returns (shuffle password) w (fun shuffled w' =>
    shuffled ≡ₚ password /\ w' = after (length password - 1) w).
Proof.
  destruct (fisher_yates_returns (length password - 1) password w)
    as (out & Hout & Hperm).
  exists out, (after (length password - 1) w).
  rewrite shuffle_fisher_yates. auto.
Qed.

(** ** [generate_password], stage by stage *)

Lemma pool_classes (c : ascii) (iu il id isy : bool) :
  in_class c (character_pool iu il id isy)
  = (iu && in_class c ascii_uppercase) || (il && in_class c ascii_lowercase)
    || (id && in_class c digits) || (isy && in_class c symbols).
Proof.
  unfold character_pool. rewrite !in_class_app.
  destruct iu, il, id, isy; simpl;
    rewrite ?orb_false_r, ?orb_assoc; reflexivity.
Qed.

Lemma character_pool_empty (iu il id isy : bool) :
  String.eqb (character_pool iu il id isy) "" = negb (iu || il || id || isy).
Proof. destruct iu, il, id, isy; reflexivity. Qed.

Lemma character_pool_nonempty (iu il id isy : bool) :
  iu || il || id || isy = true -> character_pool iu il id isy <> "".
Proof.
  intros H E. apply String.eqb_eq in E.
  rewrite character_pool_empty, H in E. discriminate.
Qed.

Lemma seed_covers (class : string) (extra : list ascii) :
  seed_of true class extra -> exists c, In c extra /\ in_class c class = true.
Proof.
  intros [Hall Hlen]. destruct extra as [| c extra]; [discriminate |].
  exists c. split; [left; reflexivity |]. inversion Hall; assumption.
Qed.

Lemma seed_in_pool (selected : bool) (class pool : string) (extra : list ascii) :
  (forall c, selected = true -> in_class c class = true -> in_class c pool = true) ->
  seed_of selected class extra ->
  Forall (fun c => in_class c pool = true) extra.
Proof.
  intros Hpool [Hall Hlen]. destruct selected.
  - eapply Forall_impl; [exact Hall |]. intros c Hc. apply Hpool; auto.
  - destruct extra; [constructor | discriminate].
Qed.

Lemma returns_fill_password (length : Z) (iu il id isy : bool) (w : World) :
  iu || il || id || isy = true ->
  (4 <= length)%Z ->
  returns
    (fill_password length iu il id isy (character_pool iu il id isy)) w
    (fun p w' =>
       seeded_buffer length iu il id isy p /\ w' = after (Z.to_nat length) w).
Proof.
  intros Hsel Hlen. unfold fill_password.
  apply returns_bind.
  eapply returns_weaken; [| apply returns_append_choice; discriminate].
  intros p1 w1 (s1 & -> & H1 & L1 & ->). simpl app.
  apply returns_bind.
  eapply returns_weaken; [| apply returns_append_choice; discriminate].
  intros p2 w2 (s2 & -> & H2 & L2 & ->).
  apply returns_bind.
  eapply returns_weaken; [| apply returns_append_choice; discriminate].
  intros p3 w3 (s3 & -> & H3 & L3 & ->).
  apply returns_bind.
  eapply returns_weaken; [| apply returns_append_choice; discriminate].
  intros p4 w4 (s4 & -> & H4 & L4 & ->).
  eapply returns_weaken;
    [| apply returns_extend_choices; apply character_pool_nonempty; exact Hsel].
  intros p w' (rest & -> & Hrest & Lrest & ->).
  assert (Hseeds : List.length (((s1 ++ s2) ++ s3) ++ s4)%list <= 4).
  { rewrite !length_app, L1, L2, L3, L4. destruct iu, il, id, isy; simpl; lia. }
  split.
  - exists s1, s2, s3, s4, rest. unfold seed_of.
    repeat split; try assumption.
    + rewrite <- !app_assoc. reflexivity.
    + rewrite length_app, Lrest. lia.
  - rewrite !after_after. f_equal.
    rewrite !length_app in Hseeds |- *. lia.
Qed.

Lemma generate_password_stages (length : Z) (iu il id isy : bool) (w : World) :
  (8 <= length)%Z -> iu || il || id || isy = true ->
  exists buffer shuffled w1 w2,
    fill_password length iu il id isy (character_pool iu il id isy) w
      = (Returned buffer, w1)
    /\ shuffle buffer w1 = (Returned shuffled, w2)
    /\ generate_password length iu il id isy w
      = (Returned (string_of_list_ascii shuffled), w2)
    /\ seeded_buffer length iu il id isy buffer
    /\ shuffled ≡ₚ buffer
    /\ w2 = after (2 * Z.to_nat length - 1) w.
Proof.
  intros Hlen Hsel.
  destruct (returns_fill_password length iu il id isy w Hsel ltac:(lia))
    as (buffer & w1 & Hfill & Hbuf & ->).
  destruct (returns_shuffle buffer (after (Z.to_nat length) w))
    as (shuffled & w2 & Hsh & Hperm & ->).
  exists buffer, shuffled, (after (Z.to_nat length) w),
    (after (List.length buffer - 1) (after (Z.to_nat length) w)).
  repeat split; try assumption.
  - unfold generate_password.
    replace (length <? 8)%Z with false by (symmetry; apply Z.ltb_ge; lia).
    rewrite character_pool_empty, Hsel. change (negb true) with false. cbv iota.
    unfold bind. rewrite Hfill, Hsh. reflexivity.
  - destruct Hbuf as (? & ? & ? & ? & ? & _ & _ & _ & _ & _ & _ & L).
    rewrite after_after, L. f_equal. lia.
Qed.

(** No character belongs to two classes. *)
Lemma classes_disjoint (c : ascii) :
  Nat.b2n (in_class c ascii_uppercase) + Nat.b2n (in_class c ascii_lowercase)
  + Nat.b2n (in_class c digits) + Nat.b2n (in_class c symbols) <= 1.
Proof.
  destruct c as [[] [] [] [] [] [] [] []]; vm_compute; lia.
Qed.

Lemma seeded_buffer_in_pool (length : Z) (iu il id isy : bool) (p : list ascii) :
  seeded_buffer length iu il id isy p ->
  Forall (fun c => in_class c (character_pool iu il id isy) = true) p.
Proof.
  intros (s1 & s2 & s3 & s4 & rest & -> & H1 & H2 & H3 & H4 & Hrest & _).
  repeat (apply Forall_app; split); try exact Hrest;
    (eapply seed_in_pool; [| eassumption]);
    intros c -> Hc; rewrite pool_classes, Hc;
    rewrite ?andb_true_l, ?orb_true_r; reflexivity.
Qed.

Lemma seeded_buffer_covers (length : Z) (iu il id isy : bool) (p : list ascii)
    (selected : bool) (class : string) :
  seeded_buffer length iu il id isy p ->
  In (selected, class)
     [(iu, ascii_uppercase); (il, ascii_lowercase); (id, digits); (isy, symbols)] ->
  selected = true ->
  exists c, In c p /\ in_class c class = true.
Proof.
  intros (s1 & s2 & s3 & s4 & rest & -> & H1 & H2 & H3 & H4 & _) Hin ->.
  simpl in Hin.
  destruct Hin as [E | [E | [E | [E | []]]]]; injection E as -> <-.
  - destruct (seed_covers _ _ H1) as (c & Hc & Hcl). exists c.
    rewrite !in_app_iff. auto.
  - destruct (seed_covers _ _ H2) as (c & Hc & Hcl). exists c.
    rewrite !in_app_iff. auto.
  - destruct (seed_covers _ _ H3) as (c & Hc & Hcl). exists c.
    rewrite !in_app_iff. auto.
  - destruct (seed_covers _ _ H4) as (c & Hc & Hcl). exists c.
    rewrite !in_app_iff. auto 6.
Qed.

Lemma pool_excludes (iu il id isy : bool) (c : ascii) (selected : bool) (class : string) :
  in_class c (character_pool iu il id isy) = true ->
  In (selected, class)
     [(iu, ascii_uppercase); (il, ascii_lowercase); (id, digits); (isy, symbols)] ->
  selected = false ->
  in_class c class = false.
Proof.
  intros Hpool Hin ->. rewrite pool_classes in Hpool.
  pose proof (classes_disjoint c) as D.
  simpl in Hin.
  destruct Hin as [E | [E | [E | [E | []]]]]; injection E as -> <-;
    repeat match goal with b : bool |- _ => destruct b end; simpl in Hpool;
    destruct (in_class c ascii_uppercase), (in_class c ascii_lowercase),
      (in_class c digits), (in_class c symbols);
    simpl in *; try reflexivity; try discriminate; lia.
Qed.

Lemma count_class_pos (class : string) (l : list ascii) (c : ascii) :
  In c l -> in_class c class = true ->
  1 <= List.length (List.filter (fun c => in_class c class) l).
Proof.
  intros Hin Hc.
  assert (H : In c (List.filter (fun c => in_class c class) l))
    by (apply filter_In; auto).
  destruct (List.filter _ l); [destruct H | simpl; lia].
Qed.

Lemma count_class_zero (class : string) (l : list ascii) :
  (forall c, In c l -> in_class c class = false) ->
  List.length (List.filter (fun c => in_class c class) l) = 0.
Proof.
  induction l as [| a l IH]; intros H; [reflexivity |].
  simpl. rewrite (H a) by (left; reflexivity).
  apply IH. intros c Hc. apply H. right. exact Hc.
Qed.

Lemma length_string_of_list_ascii (l : list ascii) :
  String.length (string_of_list_ascii l) = List.length l.
Proof. induction l as [| a l IH]; simpl; congruence. Qed.

(** ** What [generate_password] returns *)

(** C2. For every valid [PasswordSpec] (length at least 8, some class
    selected) and every run of the random source, [generate_password]
    returns a string whose length is exactly the length asked for, which
    holds at least one character of every selected class and no character
    of a class that is not selected. *)
Theorem generate_password_meets_spec (s : PasswordSpec) (w : World) :
  valid_spec s = true ->
  exists password w',
    generatePassword s w = (Returned password, w')
    /\ Z.of_nat (String.length password) = spec_length s
    /\ (forall selected class, In (selected, class) (classes s) ->
          if selected then 1 <= count_class class password
          else count_class class password = 0).
Proof.
  unfold valid_spec. intros Hv. apply andb_prop in Hv as [Hlen Hsel].
  apply Z.leb_le in Hlen.
  destruct (generate_password_stages _ _ _ _ _ w Hlen Hsel)
    as (buffer & shuffled & w1 & w2 & _ & _ & Hgen & Hbuf & Hperm & _).
  exists (string_of_list_ascii shuffled), w2.
  split; [exact Hgen |]. split.
  - rewrite length_string_of_list_ascii, (Permutation_length Hperm).
    destruct Hbuf as (? & ? & ? & ? & ? & _ & _ & _ & _ & _ & _ & L).
    rewrite L. lia.
  - intros selected class Hin. unfold count_class.
    rewrite list_ascii_of_string_of_list_ascii.
    destruct selected eqn:Hs.
    + destruct (seeded_buffer_covers _ _ _ _ _ _ _ _ Hbuf Hin eq_refl)
        as (c & Hc & Hcl).
      apply (count_class_pos class shuffled c); [| exact Hcl].
      apply (Permutation_in c (Permutation_sym Hperm)). exact Hc.
    + apply count_class_zero. intros c Hc.
      apply (pool_excludes (uppercase s) (lowercase s) (digit s) (symbol s)
               c false class); [| exact Hin | reflexivity].
      pose proof (seeded_buffer_in_pool _ _ _ _ _ _ Hbuf) as Hall.
      rewrite List.Forall_forall in Hall. apply Hall.
      apply (Permutation_in c Hperm). exact Hc.
Qed.

Lemma generate_password_meets_spec_witness :
  valid_spec Reference.example_spec = true
  /\ exists password w',
       generatePassword Reference.example_spec Reference.tape0
         = (Returned password, w')
       /\ Z.of_nat (String.length password) = 12%Z
       /\ (forall selected class,
             In (selected, class) (classes Reference.example_spec) ->
             if selected then 1 <= count_class class password
             else count_class class password = 0).
Proof.
  split; [reflexivity |].
  exact (generate_password_meets_spec Reference.example_spec Reference.tape0 eq_refl).
Defined.

(** C5. [generate_password] raises (a [ValueError], leaving the random
    source untouched) exactly when the length is below 8 or no class is
    selected, and returns a password exactly when the length is at least 8
    and some class is selected. *)
Theorem generate_password_invalid_iff (s : PasswordSpec) (w : World) :
  ((exists msg, generatePassword s w = (Raised (mkExc ValueError msg), w))
   <-> ((spec_length s < 8)%Z
        \/ uppercase s || lowercase s || digit s || symbol s = false))
  /\ ((exists password w', generatePassword s w = (Returned password, w'))
      <-> ((8 <= spec_length s)%Z
           /\ uppercase s || lowercase s || digit s || symbol s = true)).
Proof.
  unfold generatePassword.
  destruct (Z.ltb_spec (spec_length s) 8) as [Hlt | Hge].
  - (* too short *)
    assert (E : generate_password (spec_length s) (uppercase s) (lowercase s)
                  (digit s) (symbol s) w
                = (Raised (mkExc ValueError
                     "Password length must be at least 8 characters"), w)).
    { unfold generate_password.
      replace (spec_length s <? 8)%Z with true by (symmetry; apply Z.ltb_lt; lia).
      reflexivity. }
    split; split.
    + intros _. left. exact Hlt.
    + intros _. eexists. exact E.
    + intros (p & w' & H). rewrite E in H. discriminate.
    + intros [H _]. lia.
  - destruct (uppercase s || lowercase s || digit s || symbol s) eqn:Hsel.
    + (* valid *)
      destruct (generate_password_stages _ _ _ _ _ w Hge Hsel)
        as (buffer & shuffled & w1 & w2 & _ & _ & Hgen & _).
      split; split.
      * intros (msg & H). rewrite Hgen in H. discriminate.
      * intros [H | H]; [lia | discriminate].
      * intros _. split; [exact Hge | reflexivity].
      * intros _. eauto.
    + (* no class *)
      assert (E : generate_password (spec_length s) (uppercase s) (lowercase s)
                    (digit s) (symbol s) w
                  = (Raised (mkExc ValueError
                       "At least one character type must be selected"), w)).
      { unfold generate_password.
        replace (spec_length s <? 8)%Z with false by (symmetry; apply Z.ltb_ge; lia).
        rewrite character_pool_empty, Hsel. reflexivity. }
      split; split.
      * intros _. right. reflexivity.
      * intros _. eexists. exact E.
      * intros (p & w' & H). rewrite E in H. discriminate.
      * intros [_ H]. discriminate.
Qed.

(** One step of the pass at index [i]: one draw [j] of the uniform-index
    primitive with bound [i + 1], so [j <= i]; positions [i] and [j] trade
    their contents; the pass goes on at [i - 1]. *)
Lemma fisher_yates_step {A} (i : nat) (buf : list A) (w : World) :
  0 < i < length buf ->
  exists j,
    randbelow (i + 1) w = (Returned j, advance w)
    /\ j <= i
    /\ fisher_yates i buf w = fisher_yates (i - 1) (exchange buf i j) (advance w)
    /\ exchange buf i j !! i = buf !! j
    /\ exchange buf i j !! j = buf !! i.
Proof.
  intros [Hi Hlen].
  destruct (randbelow_eq (i + 1) w ltac:(lia)) as [E Hj].
  exists (N.to_nat (read w mod N.of_nat (i + 1))).
  set (j := N.to_nat (read w mod N.of_nat (i + 1))) in *.
  split; [exact E |]. split; [lia |]. split.
  - destruct i as [| i]; [lia |].
    cbn [fisher_yates]. unfold bind. rewrite E.
    replace (S i - 1) with i by lia. reflexivity.
  - unfold exchange.
    destruct (lookup_lt_is_Some_2 buf i Hlen) as [x Hx].
    destruct (lookup_lt_is_Some_2 buf j ltac:(lia)) as [y Hy].
    rewrite Hx, Hy. split.
    + rewrite list_lookup_insert_eq by (rewrite length_insert; lia). reflexivity.
    + destruct (decide (i = j)) as [Eij | Hne].
      * rewrite <- Eij in *.
        rewrite list_lookup_insert_eq by (rewrite length_insert; lia). congruence.
      * rewrite list_lookup_insert_ne by exact Hne.
        rewrite list_lookup_insert_eq by lia. reflexivity.
Qed.

(** Every index up to [i] is a possible draw. *)
Lemma randbelow_reaches (n j p : nat) :
  j < n -> exists w, pos w = p /\ randbelow n w = (Returned j, advance w).
Proof.
  intros Hj. exists (mkWorld (fun _ => N.of_nat j) p). split; [reflexivity |].
  destruct (randbelow_eq n (mkWorld (fun _ => N.of_nat j) p) ltac:(lia)) as [E _].
  rewrite E. do 2 f_equal. unfold read. simpl.
  rewrite N.mod_small by lia. apply Nat2N.id.
Qed.

(** *** The pass does not favour any arrangement *)

Lemma fisher_yates_replay {A} (i : nat) :
  forall (buf : list A) (w : World),
    fisher_yates i buf w = (Returned (fisher_yates_on i (draws_of i w) buf), after i w)
    /\ bounded_draws i (draws_of i w).
Proof.
  induction i as [| i IH]; intros buf w.
  - rewrite after_0. split; [reflexivity | exact I].
  - cbn [fisher_yates draws_of fisher_yates_on bounded_draws]. unfold bind.
    destruct (randbelow_eq (S i + 1) w ltac:(lia)) as [E Hj]. rewrite E.
    destruct (IH (exchange buf (S i) (N.to_nat (read w mod N.of_nat (S i + 1))))
                 (advance w)) as [Hrun Hb].
    rewrite Hrun, after_advance. split; [reflexivity |].
    split; [lia | exact Hb].
Qed.

Lemma exchange_lookup_other {A} (buf : list A) (i j k : nat) :
  k <> i -> k <> j -> exchange buf i j !! k = buf !! k.
Proof.
  intros Hi Hj. unfold exchange.
  destruct (buf !! i), (buf !! j); try reflexivity.
  rewrite !list_lookup_insert_ne by congruence. reflexivity.
Qed.

Lemma exchange_lookup_left {A} (buf : list A) (i j : nat) :
  i < length buf -> j < length buf -> exchange buf i j !! i = buf !! j.
Proof.
  intros Hi Hj. unfold exchange.
  destruct (lookup_lt_is_Some_2 buf i Hi) as [x Hx].
  destruct (lookup_lt_is_Some_2 buf j Hj) as [y Hy].
  rewrite Hx, Hy, list_lookup_insert_eq by (rewrite length_insert; lia).
  reflexivity.
Qed.

(** The positions above the index of the pass are left alone. *)
Lemma fisher_yates_on_above {A} (i : nat) :
  forall (draws : list nat) (buf : list A) (k : nat),
    bounded_draws i draws -> i < k ->
    fisher_yates_on i draws buf !! k = buf !! k.
Proof.
  induction i as [| i IH]; intros draws buf k Hb Hk.
  - destruct draws; reflexivity.
  - destruct draws as [| j rest]; [destruct Hb |].
    destruct Hb as [Hj Hb]. cbn [fisher_yates_on].
    rewrite (IH rest _ k Hb) by lia.
    apply exchange_lookup_other; lia.
Qed.

(** On a buffer without repetition, two different lists of draws leave two
    different arrangements: each of the [(i + 1)!] lists of draws yields its
    own arrangement, so uniform draws give every arrangement the same
    weight. *)
Lemma fisher_yates_on_injective {A} (i : nat) :
  forall (buf : list A) (d d' : list nat),
    i < length buf -> NoDup buf ->
    bounded_draws i d -> bounded_draws i d' ->
    fisher_yates_on i d buf = fisher_yates_on i d' buf ->
    d = d'.
Proof.
  induction i as [| i IH]; intros buf d d' Hlen Hnd Hb Hb' E.
  - destruct d, d'; try contradiction. reflexivity.
  - destruct d as [| j r]; [destruct Hb |].
    destruct d' as [| j' r']; [destruct Hb' |].
    destruct Hb as [Hj Hb], Hb' as [Hj' Hb'].
    assert (Ej : j = j').
    { assert (Hat : fisher_yates_on (S i) (j :: r) buf !! S i
                    = fisher_yates_on (S i) (j' :: r') buf !! S i)
        by (rewrite E; reflexivity).
      cbn [fisher_yates_on] in Hat.
      rewrite !fisher_yates_on_above in Hat by (assumption || lia).
      rewrite !exchange_lookup_left in Hat by lia.
      destruct (lookup_lt_is_Some_2 buf j ltac:(lia)) as [x Hx].
      rewrite Hx in Hat. symmetry in Hat.
      exact (NoDup_lookup buf j j' x Hnd Hx Hat). }
    subst j'. f_equal.
    cbn [fisher_yates_on] in E.
    apply (IH (exchange buf (S i) j)); try assumption.
    + rewrite exchange_length. lia.
    + rewrite exchange_perm. exact Hnd.
Qed.

(** C4. The shuffle of [generate_password] is a Fisher–Yates pass over the
    whole seeded-and-filled buffer: the loop of the source equals the
    recursion that goes from the last index down to 1 and, at index [i],
    exchanges position [i] with a position [j <= i] obtained from
    [secrets.randbelow(i + 1)], every such [j] being a possible draw; it
    makes one draw per index and returns a permutation of the buffer. *)
Theorem shuffle_is_fisher_yates_pass (s : PasswordSpec) (w : World) :
  valid_spec s = true ->
  exists buffer shuffled w1,
    fill_password (spec_length s) (uppercase s) (lowercase s) (digit s) (symbol s)
      (character_pool (uppercase s) (lowercase s) (digit s) (symbol s)) w
      = (Returned buffer, w1)
    /\ Z.of_nat (length buffer) = spec_length s
    /\ shuffle buffer w1 = fisher_yates (length buffer - 1) buffer w1
    /\ fisher_yates (length buffer - 1) buffer w1
       = (Returned shuffled, after (length buffer - 1) w1)
    /\ shuffled ≡ₚ buffer
    /\ generatePassword s w
       = (Returned (string_of_list_ascii shuffled), after (length buffer - 1) w1)
    /\ (forall i (buf : list ascii) w0, 0 < i < length buf ->
          exists j,
            randbelow (i + 1) w0 = (Returned j, advance w0)
            /\ j <= i
            /\ fisher_yates i buf w0
               = fisher_yates (i - 1) (exchange buf i j) (advance w0)
            /\ exchange buf i j !! i = buf !! j
            /\ exchange buf i j !! j = buf !! i)
    /\ (forall i j p, j <= i ->
          exists w0, pos w0 = p /\ randbelow (i + 1) w0 = (Returned j, advance w0)).
Proof.
  unfold valid_spec. intros Hv. apply andb_prop in Hv as [Hlen Hsel].
  apply Z.leb_le in Hlen.
  destruct (generate_password_stages _ _ _ _ _ w Hlen Hsel)
    as (buffer & shuffled & w1 & w2 & Hfill & Hsh & Hgen & Hbuf & Hperm & _).
  destruct (fisher_yates_returns (length buffer - 1) buffer w1)
    as (out & Hout & _).
  assert (E := shuffle_fisher_yates buffer w1).
  rewrite Hsh, Hout in E. injection E as <- ->.
  exists buffer, shuffled, w1.
  split; [exact Hfill |]. split.
  { destruct Hbuf as (? & ? & ? & ? & ? & _ & _ & _ & _ & _ & _ & L).
    rewrite L. lia. }
  split; [apply shuffle_fisher_yates |].
  split; [exact Hout |]. split; [exact Hperm |]. split; [exact Hgen |].
  split; [intros i buf w0; apply fisher_yates_step |].
  intros i j p Hj. apply randbelow_reaches. lia.
Qed.

Lemma shuffle_is_fisher_yates_pass_witness :
  valid_spec Reference.example_spec = true
  /\ exists buffer shuffled w1,
       fill_password 12 true false true false
         (character_pool true false true false) Reference.tape0
         = (Returned buffer, w1)
       /\ shuffle buffer w1 = fisher_yates (length buffer - 1) buffer w1
       /\ shuffled ≡ₚ buffer
       /\ generatePassword Reference.example_spec Reference.tape0
          = (Returned (string_of_list_ascii shuffled), after (length buffer - 1) w1).
Proof.
  split; [reflexivity |].
  destruct (shuffle_is_fisher_yates_pass Reference.example_spec Reference.tape0 eq_refl)
    as (buffer & shuffled & w1 & H1 & _ & H2 & _ & H3 & H4 & _).
  exists buffer, shuffled, w1. auto.
Defined.

(** Two runs of the shuffle on a buffer without repetition that end in the
    same arrangement made the same draws. *)
Lemma shuffle_unbiased {A} (buf : list A) (w w' : World) :
  NoDup buf ->
  fst (fisher_yates (length buf - 1) buf w) = fst (fisher_yates (length buf - 1) buf w') ->
  draws_of (length buf - 1) w = draws_of (length buf - 1) w'.
Proof.
  intros Hnd E.
  destruct (fisher_yates_replay (length buf - 1) buf w) as [Hw Hb].
  destruct (fisher_yates_replay (length buf - 1) buf w') as [Hw' Hb'].
  rewrite Hw, Hw' in E. simpl in E. injection E as E.
  destruct buf as [| a buf]; [reflexivity |].
  apply (fisher_yates_on_injective (length (a :: buf) - 1) (a :: buf));
    try assumption.
  simpl. lia.
Qed.

(** ** Tokens, keys and PINs *)

Lemma urandom_bytes_returns (n : nat) (w : World) :
  exists bs, urandom_bytes n w = (Returned bs, after n w) /\ length bs = n.
Proof.
  revert w. induction n as [| n IH]; intros w.
  - exists []. rewrite after_0. split; reflexivity.
  - destruct (IH (advance w)) as (bs & E & L).
    exists (Z.of_N (read w mod 256) :: bs).
    cbn [urandom_bytes]. unfold bind. rewrite E, after_advance.
    split; [reflexivity | simpl; congruence].
Qed.

Lemma urandom_returns (n : Z) (w : World) :
  (0 <= n)%Z ->
  exists bs, urandom n w = (Returned bs, after (Z.to_nat n) w)
             /\ length bs = Z.to_nat n.
Proof.
  intros Hn. unfold urandom.
  replace (n <? 0)%Z with false by (symmetry; apply Z.ltb_ge; lia).
  apply urandom_bytes_returns.
Qed.

Lemma hex_length (bs : list Z) : String.length (hex bs) = 2 * length bs.
Proof. induction bs as [| b bs IH]; simpl; [reflexivity | rewrite IH; lia]. Qed.

Lemma hex_digit_lower (n : Z) : is_lower_hex (hex_digit n) = true.
Proof.
  unfold hex_digit.
  assert (H : Z.to_nat (n mod 16) < 16)
    by (pose proof (Z.mod_pos_bound n 16 ltac:(lia)); lia).
  destruct (Z.to_nat (n mod 16)) as [| k]; [reflexivity |].
  do 15 (destruct k as [| k]; [reflexivity |]). lia.
Qed.

Lemma hex_lower (bs : list Z) :
  Forall (fun c => is_lower_hex c = true) (list_ascii_of_string (hex bs)).
Proof.
  induction bs as [| b bs IH]; simpl; [constructor |].
  repeat constructor; try apply hex_digit_lower. exact IH.
Qed.

Lemma generate_token_returns (length : Z) (w : World) :
  (0 <= length)%Z ->
  exists bs,
    generate_token length w = (Returned (hex bs), after (Z.to_nat length) w)
    /\ List.length bs = Z.to_nat length.
Proof.
  intros Hlen. unfold generate_token, urandom.
  replace (length <? 0)%Z with false by (symmetry; apply Z.ltb_ge; lia).
  destruct (urandom_bytes_returns (Z.to_nat length) w) as (bs & E & L).
  exists bs. unfold bind. rewrite E. split; [reflexivity | exact L].
Qed.



Lemma choices_return (pool : string) (n : Z) (w : World) :
  pool <> "" ->
  exists cs, extend_choices pool n [] w = (Returned cs, after (Z.to_nat n) w).
Proof.
  intros Hne.
  destruct (returns_extend_choices pool n [] w Hne)
    as (cs & w' & E & _ & _ & _ & _ & ->).
  exists cs. exact E.
Qed.


(** ** Digests *)

Lemma be_bytes_length (n : nat) (x : Z) : length (Hashlib.be_bytes n x) = n.
Proof. induction n as [| n IH]; simpl; congruence. Qed.

Lemma le_bytes_length (n : nat) (x : Z) : length (Hashlib.le_bytes n x) = n.
Proof. revert x. induction n as [| n IH]; intros x; simpl; [| rewrite IH]; reflexivity. Qed.

Lemma sha2_length (P : Hashlib.Sha2Params) (msg : list Z) :
  length (Hashlib.sha2 P msg) = 8 * Hashlib.word_bytes P.
Proof.
  unfold Hashlib.sha2.
  destruct (fold_left _ _ _) as [[[[[[[h0 h1] h2] h3] h4] h5] h6] h7].
  simpl. rewrite !length_app, !be_bytes_length. simpl. lia.
Qed.

Lemma sha1_length (msg : list Z) : length (Hashlib.sha1 msg) = 20.
Proof.
  unfold Hashlib.sha1.
  destruct (fold_left _ _ _) as [[[[h0 h1] h2] h3] h4]. reflexivity.
Qed.

Lemma md5_length (msg : list Z) : length (Hashlib.md5 msg) = 16.
Proof.
  unfold Hashlib.md5.
  destruct (fold_left _ _ _) as [[[a b] c] d]. reflexivity.
Qed.

(** Each supported name is bound to a digest of the stated width. *)
Lemma algorithms_supported (algorithm : string) :
  In algorithm supported_algorithms ->
  exists h, dict_get algorithm algorithms = Some h
            /\ forall msg, length (h msg) = digest_size algorithm.
Proof.
  intros [<- | [<- | [<- | [<- | []]]]]; eexists; (split; [reflexivity |]);
    intros msg.
  - apply md5_length.
  - apply sha1_length.
  - apply (sha2_length Hashlib.sha256_params).
  - apply (sha2_length Hashlib.sha512_params).
Qed.

Lemma algorithms_unsupported (algorithm : string) :
  ~ In algorithm supported_algorithms -> dict_get algorithm algorithms = None.
Proof.
  intros H. unfold algorithms, dict_get.
  destruct (String.eqb_spec algorithm "md5") as [-> | _];
    [exfalso; apply H; simpl; tauto |].
  destruct (String.eqb_spec algorithm "sha1") as [-> | _];
    [exfalso; apply H; simpl; tauto |].
  destruct (String.eqb_spec algorithm "sha256") as [-> | _];
    [exfalso; apply H; simpl; tauto |].
  destruct (String.eqb_spec algorithm "sha512") as [-> | _];
    [exfalso; apply H; simpl; tauto |].
  reflexivity.
Qed.

Lemma encode_raises (text : list Z) (e : Exc) :
  Hashlib.encode text = Raised e -> exc_class e = UnicodeEncodeError.
Proof.
  unfold Hashlib.encode.
  destruct (Hashlib.find_surrogate 0 text) as [[[p c] [| k]] |];
    intros E; inversion E; reflexivity.
Qed.



(** ** Batches *)

Lemma record_call_eq (generator : M string) (i : Z) (results : list string) (w : World) :
  raises_only_Exception generator ->
  record_call generator i results w
  = (Returned (results ++ [line_of i (fst (generator w))])%list, snd (generator w)).
Proof.
  intros Hg. unfold record_call, try_except_Exception, bind.
  destruct (generator w) as [[item | e] w1] eqn:E; [reflexivity |].
  rewrite (Hg w e w1 E). reflexivity.
Qed.

Lemma run_batch_from (generator : M string) (n : nat) :
  raises_only_Exception generator ->
  forall (a : nat) (acc : list string) (w : World),
    for_each (map Z.of_nat (seq a n)) (record_call generator) acc w
    = (Returned
         (acc ++ map (fun j => line_of (Z.of_nat (a + j))
                                 (fst (generator (world_at generator j w))))
                     (seq 0 n))%list,
       world_at generator n w).
Proof.
  intros Hg. induction n as [| n IH]; intros a acc w.
  - simpl. rewrite app_nil_r. reflexivity.
  - cbn [seq map for_each]. unfold bind at 1.
    rewrite (record_call_eq generator _ acc w Hg), IH.
    rewrite <- seq_shift, map_map, <- app_assoc. cbn [world_at app].
    replace (a + 0) with a by lia.
    apply f_equal2; [| reflexivity]. do 3 apply f_equal.
    apply map_ext. intros j.
    replace (S a + j) with (a + S j) by lia. reflexivity.
Qed.

Lemma run_batch_eq (generator : M string) (count : Z) (w : World) :
  raises_only_Exception generator ->
  run_batch generator count w
  = (Returned (batch_lines generator count w),
     world_at generator (Z.to_nat count) w).
Proof.
  intros Hg. unfold run_batch. rewrite range_seq.
  rewrite (run_batch_from generator (Z.to_nat count) Hg 0 [] w). reflexivity.
Qed.

(** The five generators raise nothing outside [Exception]. *)
Lemma raises_only_raise {A} (c : ExcClass) (msg : string) :
  is_Exception c = true -> raises_only_Exception (@raise A c msg).
Proof. intros Hc w e w' E. inversion E. exact Hc. Qed.

Lemma raises_only_call_with (q : string) (params : list string) (kw : Kwargs)
    (body : M string) :
  raises_only_Exception body -> raises_only_Exception (call_with q params kw body).
Proof.
  intros Hb. unfold call_with.
  destruct (unexpected_keyword params kw); [| exact Hb].
  apply raises_only_raise. reflexivity.
Qed.

Lemma raises_only_generate_uuid (version : Z) :
  raises_only_Exception (generate_uuid version).
Proof.
  unfold generate_uuid.
  destruct (version =? 1)%Z; [| destruct (version =? 4)%Z].
  - intros w e w' E. discriminate.
  - intros w e w' E. unfold uuid4, bind in E.
    destruct (urandom_returns 16 w ltac:(lia)) as (bs & Hbs & _).
    rewrite Hbs in E. discriminate.
  - apply raises_only_raise. reflexivity.
Qed.

Lemma raises_only_generate_password (length : Z) (iu il id isy : bool) :
  raises_only_Exception (generate_password length iu il id isy).
Proof.
  intros w e w' E. unfold generate_password in E.
  destruct (Z.ltb_spec length 8) as [Hlt | Hge]; [inversion E; reflexivity |].
  rewrite character_pool_empty in E.
  destruct (iu || il || id || isy) eqn:Hsel; simpl in E; [| inversion E; reflexivity].
  destruct (generate_password_stages length iu il id isy w Hge Hsel)
    as (buffer & shuffled & w1 & w2 & Hfill & Hsh & _).
  unfold bind in E. rewrite Hfill, Hsh in E. discriminate.
Qed.

Lemma raises_only_generate_api_key (length : Z) :
  raises_only_Exception (generate_api_key length).
Proof.
  intros w e w' E. unfold generate_api_key in E.
  destruct (length <? 16)%Z; [inversion E; reflexivity |].
  destruct (choices_return (ascii_letters +:+ digits) length w ltac:(discriminate))
    as (cs & Hcs).
  unfold bind in E. rewrite Hcs in E. discriminate.
Qed.

Lemma raises_only_generate_pin (length : Z) :
  raises_only_Exception (generate_pin length).
Proof.
  intros w e w' E. unfold generate_pin in E.
  destruct (length <? 4)%Z; [inversion E; reflexivity |].
  destruct (choices_return digits length w ltac:(discriminate)) as (cs & Hcs).
  unfold bind in E. rewrite Hcs in E. discriminate.
Qed.

Lemma raises_only_generate_token (length : Z) :
  raises_only_Exception (generate_token length).
Proof.
  intros w e w' E. unfold generate_token, urandom in E.
  destruct (Z.ltb_spec length 0) as [Hneg | Hpos]; [inversion E; reflexivity |].
  destruct (urandom_bytes_returns (Z.to_nat length) w) as (bs & Hbs & _).
  unfold bind in E. rewrite Hbs in E. discriminate.
Qed.

Lemma generators_raise_only_Exception (generator_type : string)
    (g : Kwargs -> M string) (kwargs : Kwargs) :
  dict_get generator_type generators = Some g ->
  raises_only_Exception (g kwargs).
Proof.
  unfold generators, dict_get.
  repeat match goal with
         | |- context [String.eqb generator_type ?k] =>
             destruct (String.eqb generator_type k)
         end;
    intros E; try discriminate; injection E as <-;
    apply raises_only_call_with;
    auto using raises_only_generate_uuid, raises_only_generate_password,
      raises_only_generate_api_key, raises_only_generate_token,
      raises_only_generate_pin.
Qed.

Lemma raises_only_third_call_fails : raises_only_Exception third_call_fails.
Proof.
  intros w e w' E. unfold third_call_fails in E.
  destruct (pos w =? 2); inversion E; reflexivity.
Qed.

(** C3. A batch calls its generator [count] times, one call after the
    other, each from the world the previous call left; it records one line
    per call, in call order and numbered from 1: the item, or the error of
    that call; an error does not stop the calls that follow.
    [generate_multiple] returns these lines under its header. *)
Theorem batch_records_every_call (count : Z) (w : World) :
  (forall generator : M string,
      raises_only_Exception generator ->
      run_batch generator count w
      = (Returned (batch_lines generator count w),
         world_at generator (Z.to_nat count) w)
      /\ length (batch_lines generator count w) = Z.to_nat count
      /\ forall k, k < Z.to_nat count ->
           batch_lines generator count w !! k
           = Some (line_of (Z.of_nat k)
                     (fst (generator (world_at generator k w)))))
  /\ (forall generator_type kwargs g,
        dict_get generator_type generators = Some g ->
        exists icon,
          generate_multiple generator_type count kwargs w
          = (Returned
               ((icon +:+ " Generated " +:+ str_int count +:+ " "
                      +:+ upper generator_type +:+ "(s):")
                +:+ nl +:+ join nl (batch_lines (g kwargs) count w)),
             world_at (g kwargs) (Z.to_nat count) w)).
Proof.
  split.
  - intros generator Hg. split; [apply run_batch_eq; exact Hg |].
    unfold batch_lines. split; [rewrite length_map, length_seq; reflexivity |].
    intros k Hk. rewrite list_lookup_fmap, lookup_seq_lt by exact Hk. reflexivity.
  - intros generator_type kwargs g Hg.
    pose proof (generators_raise_only_Exception generator_type g kwargs Hg) as Hex.
    exists (match dict_get generator_type icon_map with
            | Some i => i | None => "🔧" end).
    unfold generate_multiple. rewrite Hg. unfold bind.
    rewrite (run_batch_eq (g kwargs) count w Hex). unfold ret.
    reflexivity.
Qed.

Lemma batch_records_every_call_witness :
  raises_only_Exception third_call_fails
  /\ run_batch third_call_fails 5 Reference.tape0
     = (Returned ["1. ok"; "2. ok"; "3. Error: invalid arguments"; "4. ok"; "5. ok"],
        after 5 Reference.tape0)
  /\ exists g icon,
       dict_get "pin" generators = Some g
       /\ generate_multiple "pin" 5 [] Reference.tape0
          = (Returned
               ((icon +:+ " Generated " +:+ str_int 5 +:+ " " +:+ upper "pin" +:+ "(s):")
                +:+ nl +:+ join nl (batch_lines (g []) 5 Reference.tape0)),
             world_at (g []) 5 Reference.tape0).
Proof.
  split; [exact raises_only_third_call_fails |]. split.
  - rewrite (proj1 (proj1 (batch_records_every_call 5 Reference.tape0)
                      third_call_fails raises_only_third_call_fails)).
    reflexivity.
  - assert (Hg : exists g, dict_get "pin" generators = Some g)
      by (eexists; reflexivity).
    destruct Hg as [g Hg].
    destruct (proj2 (batch_records_every_call 5 Reference.tape0) "pin" [] g Hg)
      as [icon Hicon].
    exists g, icon. split; [exact Hg | exact Hicon].
Defined.

(** ** Substrings *)

Lemma append_assoc (a b c : string) : (a +:+ b) +:+ c = a +:+ (b +:+ c).
Proof. induction a as [| x a IH]; simpl; congruence. Qed.

Lemma append_nil_r (a : string) : a +:+ "" = a.
Proof. induction a as [| x a IH]; simpl; congruence. Qed.

Lemma prefix_iff (a b : string) :
  String.prefix a b = true <-> exists q, b = a +:+ q.
Proof.
  revert b. induction a as [| x a IH]; intros b.
  - split; [intros _; exists b; reflexivity | intros _; destruct b; reflexivity].
  - destruct b as [| y b]; simpl;
      [split; [discriminate | intros [q E]; discriminate] |].
    destruct (Ascii.ascii_dec x y) as [-> | Hne].
    + rewrite IH. split; intros [q E]; exists q; [subst | injection E as E]; congruence.
    + split; [discriminate | intros [q E]; congruence].
Qed.

Lemma contains_iff (a b : string) :
  contains a b = true <-> exists p q, b = p +:+ a +:+ q.
Proof.
  induction b as [| y b IH].
  - cbn [contains]. rewrite orb_false_r, prefix_iff. split.
    + intros [q E]. exists "", q. exact E.
    + intros (p & q & E). destruct p; [exists q; exact E |]. discriminate.
  - cbn [contains]. rewrite orb_true_iff, IH, prefix_iff. split.
    + intros [[q E] | (p & q & E)].
      * exists "", q. exact E.
      * exists (String y p), q. simpl. congruence.
    + intros (p & q & E). destruct p as [| z p].
      * left. exists q. exact E.
      * right. exists p, q. simpl in E. congruence.
Qed.

Lemma map_string_app (f : ascii -> ascii) (a b : string) :
  map_string f (a +:+ b) = map_string f a +:+ map_string f b.
Proof. induction a as [| x a IH]; simpl; congruence. Qed.

Lemma contains_trans (a b c : string) :
  contains a b = true -> contains b c = true -> contains a c = true.
Proof.
  rewrite !contains_iff. intros (p & q & ->) (p' & q' & ->).
  exists (p' +:+ p), (q +:+ q'). rewrite !append_assoc. reflexivity.
Qed.

Lemma contains_lower (a b : string) :
  contains a b = true -> contains (lower a) (lower b) = true.
Proof.
  rewrite !contains_iff. intros (p & q & ->).
  exists (lower p), (lower q). unfold lower. rewrite !map_string_app. reflexivity.
Qed.

(** Every identifier the lexer finds is a piece of the expression. *)
Lemma identifiers_from_contains (s : string) :
  forall (st : Lexing) (x : string),
    In x (identifiers_from st s) ->
    match st with
    | InIdentifier so_far => contains x (so_far +:+ s) = true
    | _ => contains x s = true
    end.
Proof.
  assert (Hskip : forall x c rest, contains x rest = true ->
                                   contains x (String c rest) = true).
  { intros x c rest H. cbn [contains]. rewrite H. apply orb_true_r. }
  assert (Hafter : forall x p rest, contains x rest = true ->
                                    contains x (p +:+ rest) = true).
  { intros x p rest. rewrite !contains_iff. intros (p' & q & ->).
    exists (p +:+ p'), q. rewrite append_assoc. reflexivity. }
  assert (Hself : forall x rest, contains x (x +:+ rest) = true).
  { intros x rest. apply contains_iff. exists "", rest. reflexivity. }
  induction s as [| c rest IH]; intros st x Hin.
  - destruct st; simpl in Hin; try contradiction.
    destruct Hin as [<- | []]. apply Hself.
  - destruct st as [| so_far |]; cbn [identifiers_from] in Hin.
    + destruct (is_ident_start c); [| destruct (is_digit c)].
      * apply (IH (InIdentifier (String c ""))) in Hin. exact Hin.
      * apply Hskip. apply (IH InNumber). exact Hin.
      * apply Hskip. apply (IH Between). exact Hin.
    + destruct (is_ident_char c).
      * apply (IH (InIdentifier (so_far +:+ String c ""))) in Hin.
        rewrite append_assoc in Hin. exact Hin.
      * destruct Hin as [<- | Hin]; [apply Hself |].
        apply Hafter, Hskip. apply (IH Between). exact Hin.
    + destruct (is_ident_char c || Ascii.eqb c ".").
      * apply Hskip. apply (IH InNumber). exact Hin.
      * apply Hskip. apply (IH Between). exact Hin.
Qed.

Lemma identifiers_contains (expression x : string) :
  In x (identifiers expression) -> contains x expression = true.
Proof. intros H. apply (identifiers_from_contains expression Between x H). Qed.

(** ** [calculate] *)

Import UnitConverter.

Section CalculateFacts.

Context {pyfloat : Type}.
Variable round_float : pyfloat -> Z -> pyfloat.
Variable py_str : Value pyfloat -> string.
Variable interp : Interpreter pyfloat.

(** What the interpreter is asked, and what [calculate] makes of its answer. *)
Lemma evaluated_calculate (expression : string) :
  evaluated interp (calculate round_float expression)
  = if has_forbidden expression then [] else [expression].
Proof.
  unfold calculate. destruct (has_forbidden expression); [reflexivity |].
  simpl. destruct (interp expression eval_globals safe_dict) as [v | e];
    [reflexivity |].
  destruct (is_Exception (exc_class e)); reflexivity.
Qed.

Lemma run_calculate (expression : string) :
  run interp (calculate round_float expression)
  = if has_forbidden expression then Returned (VStr forbidden_message)
    else
      match interp expression eval_globals safe_dict with
      | Returned result => Returned (round_result round_float result)
      | Raised e =>
          if is_Exception (exc_class e) then Returned (VStr (calculation_error e))
          else Raised e
      end.
Proof.
  unfold calculate. destruct (has_forbidden expression); [reflexivity |].
  simpl. destruct (interp expression eval_globals safe_dict) as [v | e];
    [reflexivity |].
  destruct (is_Exception (exc_class e)); reflexivity.
Qed.

Lemma run_calc_bind {A B} (c : Calc pyfloat A) (f : A -> Calc pyfloat B) :
  run interp (calc_bind c f) = run interp (f (run interp c)).
Proof. induction c as [a | source globals locals k IH]; simpl; auto. Qed.

(** An identifier with a forbidden word in it makes the whole expression
    forbidden. *)
Lemma forbidden_identifier (expression name word : string) :
  In name (identifiers expression) ->
  In word forbidden ->
  contains word (lower name) = true ->
  has_forbidden expression = true.
Proof.
  intros Hname Hword Hc. unfold has_forbidden.
  apply existsb_exists. exists word. split; [exact Hword |].
  apply (contains_trans word (lower name)); [exact Hc |].
  apply contains_lower, identifiers_contains. exact Hname.
Qed.



(** [calculate] never raises what derives from [Exception].  Unless the
    interpreter raises outside [Exception], it returns: the fixed message
    for a forbidden
    expression, the text of the error when the evaluation raised, and
    otherwise whatever object the evaluation produced, a float rounded to
    10 digits, anything else unchanged.  The tool of [server.py] passes a
    returned string on as it is and formats every other value. *)
Theorem calculate_returns (expression : string) :
  (forall e, interp expression eval_globals safe_dict = Raised e ->
             is_Exception (exc_class e) = true) ->
  exists v,
    run interp (calculate round_float expression) = Returned v
    /\ (v = VStr forbidden_message
        \/ (exists e, interp expression eval_globals safe_dict = Raised e
                      /\ v = VStr (calculation_error e))
        \/ (exists result, interp expression eval_globals safe_dict = Returned result
                           /\ v = round_result round_float result))
    /\ run interp (server_calculate round_float py_str expression)
       = Returned (match v with
                   | VStr s => s
                   | _ => "🧮 " +:+ expression +:+ " = " +:+ py_str v
                   end).
Proof.
  intros Hexc.
  assert (Hserver : forall v,
            run interp (calculate round_float expression) = Returned v ->
            run interp (server_calculate round_float py_str expression)
            = Returned (match v with
                        | VStr s => s
                        | _ => "🧮 " +:+ expression +:+ " = " +:+ py_str v
                        end)).
  { intros v Hv. unfold server_calculate. rewrite run_calc_bind, Hv.
    destruct v; reflexivity. }
  pose proof (run_calculate expression) as Hrun.
  destruct (has_forbidden expression).
  - exists (VStr forbidden_message).
    split; [exact Hrun |]. split; [left; reflexivity |].
    exact (Hserver _ Hrun).
  - destruct (interp expression eval_globals safe_dict) as [result | e] eqn:Hi.
    + exists (round_result round_float result).
      split; [exact Hrun |]. split; [right; right; eauto |].
      exact (Hserver _ Hrun).
    + rewrite (Hexc e eq_refl) in Hrun.
      exists (VStr (calculation_error e)).
      split; [exact Hrun |]. split; [right; left; eauto |].
      exact (Hserver _ Hrun).
Qed.

End CalculateFacts.

(** ** [calculate] on the reference interpreter *)




(** C9.  [calculate] is annotated to return a number or a string, and its
    caller takes every string for an error text.  On [[1, 2]] the
    evaluation produces a list and [calculate] returns it: neither a number
    nor a string, and the tool formats it as a result.  On ['hi'] the
    evaluation succeeds with a string, which the tool passes on as if it
    were an error text. *)
Lemma calculate_returns_a_list :
  run Reference.cpython (calculate Reference.round_rational "[1, 2]")
  = Returned (VList [VInt 1; VInt 2])
  /\ is_number (VList (pyfloat := Q) [VInt 1; VInt 2]) = false
  /\ is_str (VList (pyfloat := Q) [VInt 1; VInt 2]) = false
  /\ run Reference.cpython
       (server_calculate Reference.round_rational Reference.str_value "[1, 2]")
     = Returned "🧮 [1, 2] = [1, 2]"
  /\ run Reference.cpython (calculate Reference.round_rational "'hi'")
     = Returned (VStr "hi")
  /\ run Reference.cpython
       (server_calculate Reference.round_rational Reference.str_value "'hi'")
     = Returned "hi".
Proof. repeat split; reflexivity. Qed.

Lemma calculate_returns_witness :
  (forall e, Reference.cpython "2 + 3" eval_globals safe_dict = Raised e ->
             is_Exception (exc_class e) = true)
  /\ run Reference.cpython (calculate Reference.round_rational "2 + 3")
     = Returned (VInt 5)
  /\ run Reference.cpython
       (server_calculate Reference.round_rational Reference.str_value "2 + 3")
     = Returned "🧮 2 + 3 = 5".
Proof.
  assert (H : forall e, Reference.cpython "2 + 3" eval_globals safe_dict = Raised e ->
                        is_Exception (exc_class e) = true)
    by (intros e E; discriminate E).
  split; [exact H |].
  destruct (calculate_returns Reference.round_rational Reference.str_value
              Reference.cpython "2 + 3" H) as (v & Hv & _ & Hs).
  assert (E : v = VInt 5) by (vm_compute in Hv; congruence).
  subst v. split; [exact Hv | exact Hs].
Defined.

(** * Further properties of the code *)

(** ** API keys and PINs *)

Lemma pool_alphanumeric (c : ascii) :
  in_class c (ascii_letters +:+ digits) = true -> is_letter c || is_digit c = true.
Proof. destruct c as [[] [] [] [] [] [] [] []]; vm_compute; intros H; congruence. Qed.

Lemma pool_digits (c : ascii) : in_class c digits = true -> is_digit c = true.
Proof. destruct c as [[] [] [] [] [] [] [] []]; vm_compute; intros H; congruence. Qed.

Lemma choices_string (pool : string) (n : Z) (w : World) :
  pool <> "" ->
  exists cs,
    extend_choices pool n [] w = (Returned cs, after (Z.to_nat n) w)
    /\ length cs = Z.to_nat n
    /\ Forall (fun c => in_class c pool = true) cs.
Proof.
  intros Hne.
  destruct (returns_extend_choices pool n [] w Hne)
    as (cs & w' & E & extra & -> & Hall & Hlen & ->).
  exists extra. auto.
Qed.

(** [generate_api_key]: from 16 characters on, the key has exactly the
    length asked for, holds only ASCII letters and digits, and costs one
    draw of the random source per character. *)
Theorem generate_api_key_alphanumeric (length : Z) (w : World) :
  (16 <= length)%Z ->
  exists key,
    generate_api_key length w = (Returned key, after (Z.to_nat length) w)
    /\ Z.of_nat (String.length key) = length
    /\ Forall (fun c => is_letter c || is_digit c = true) (list_ascii_of_string key).
Proof.
  intros Hlen. unfold generate_api_key.
  replace (length <? 16)%Z with false by (symmetry; apply Z.ltb_ge; lia).
  destruct (choices_string (ascii_letters +:+ digits) length w ltac:(discriminate))
    as (cs & E & L & Hall).
  exists (string_of_list_ascii cs). unfold bind. rewrite E.
  split; [reflexivity |]. split.
  - rewrite length_string_of_list_ascii, L. lia.
  - rewrite list_ascii_of_string_of_list_ascii.
    eapply Forall_impl; [exact Hall |]. intros c. apply pool_alphanumeric.
Qed.

Lemma generate_api_key_alphanumeric_witness :
  (16 <= 20)%Z
  /\ exists key,
       generate_api_key 20 Reference.tape0 = (Returned key, after 20 Reference.tape0)
       /\ Z.of_nat (String.length key) = 20%Z
       /\ Forall (fun c => is_letter c || is_digit c = true) (list_ascii_of_string key).
Proof.
  split; [lia |].
  exact (generate_api_key_alphanumeric 20 Reference.tape0 ltac:(lia)).
Defined.

(** [generate_pin]: from 4 digits on, the PIN has exactly the length asked
    for, holds only decimal digits, and costs one draw per digit. *)
Theorem generate_pin_digits (length : Z) (w : World) :
  (4 <= length)%Z ->
  exists pin,
    generate_pin length w = (Returned pin, after (Z.to_nat length) w)
    /\ Z.of_nat (String.length pin) = length
    /\ Forall (fun c => is_digit c = true) (list_ascii_of_string pin).
Proof.
  intros Hlen. unfold generate_pin.
  replace (length <? 4)%Z with false by (symmetry; apply Z.ltb_ge; lia).
  destruct (choices_string digits length w ltac:(discriminate))
    as (cs & E & L & Hall).
  exists (string_of_list_ascii cs). unfold bind. rewrite E.
  split; [reflexivity |]. split.
  - rewrite length_string_of_list_ascii, L. lia.
  - rewrite list_ascii_of_string_of_list_ascii.
    eapply Forall_impl; [exact Hall |]. intros c. apply pool_digits.
Qed.

Lemma generate_pin_digits_witness :
  (4 <= 6)%Z
  /\ exists pin,
       generate_pin 6 Reference.tape0 = (Returned pin, after 6 Reference.tape0)
       /\ Z.of_nat (String.length pin) = 6%Z
       /\ Forall (fun c => is_digit c = true) (list_ascii_of_string pin).
Proof.
  split; [lia |].
  exact (generate_pin_digits 6 Reference.tape0 ltac:(lia)).
Defined.

(** ** The shuffle and its draws *)

(** On a password buffer without repeated characters, two runs of the
    shuffle end in the same arrangement exactly when they made the same
    draws: no arrangement is reached by two different draw sequences. *)
Theorem shuffle_arrangement_determines_draws (password : list ascii) (w w' : World) :
  NoDup password ->
  (fst (shuffle password w) = fst (shuffle password w')
   <-> draws_of (length password - 1) w = draws_of (length password - 1) w').
Proof.
  intros Hnd. rewrite !shuffle_fisher_yates. split.
  - apply shuffle_unbiased. exact Hnd.
  - intros E.
    destruct (fisher_yates_replay (length password - 1) password w) as [Hw _].
    destruct (fisher_yates_replay (length password - 1) password w') as [Hw' _].
    rewrite Hw, Hw', E. reflexivity.
Qed.

Lemma shuffle_arrangement_determines_draws_witness :
  NoDup (list_ascii_of_string "abcde")
  /\ (fst (shuffle (list_ascii_of_string "abcde") Reference.tape0)
      = fst (shuffle (list_ascii_of_string "abcde") (after 4 Reference.tape0))
      <-> draws_of 4 Reference.tape0 = draws_of 4 (after 4 Reference.tape0)).
Proof.
  assert (H : NoDup (list_ascii_of_string "abcde")).
  { apply (bool_decide_unpack _). vm_compute. exact I. }
  split; [exact H |].
  exact (shuffle_arrangement_determines_draws (list_ascii_of_string "abcde")
           Reference.tape0 (after 4 Reference.tape0) H).
Defined.

(** ** [generate_multiple] as a whole *)

Lemma generate_multiple_eq (generator_type : string) (count : Z) (kwargs : Kwargs)
    (g : Kwargs -> M string) (w : World) :
  dict_get generator_type generators = Some g ->
  generate_multiple generator_type count kwargs w
  = (Returned (batch_header generator_type count +:+ nl
               +:+ join nl (batch_lines (g kwargs) count w)),
     world_at (g kwargs) (Z.to_nat count) w).
Proof.
  intros Hg.
  pose proof (generators_raise_only_Exception generator_type g kwargs Hg) as Hex.
  unfold generate_multiple. rewrite Hg. unfold bind.
  rewrite (run_batch_eq (g kwargs) count w Hex). reflexivity.
Qed.



(** *** A batch fails as a whole or not at all *)

Lemma validates_first_raise (c : ExcClass) (msg : string) :
  validates_first (raise c msg).
Proof. left. exists (mkExc c msg). reflexivity. Qed.

Lemma validates_first_call_with (q : string) (params : list string) (kw : Kwargs)
    (body : M string) :
  validates_first body -> validates_first (call_with q params kw body).
Proof.
  intros Hb. unfold call_with.
  destruct (unexpected_keyword params kw); [apply validates_first_raise | exact Hb].
Qed.

Lemma validates_first_generate_uuid (version : Z) :
  validates_first (generate_uuid version).
Proof.
  unfold generate_uuid.
  destruct (version =? 1)%Z; [| destruct (version =? 4)%Z].
  - right. intros w. eexists _, _. reflexivity.
  - right. intros w. unfold uuid4, bind.
    destruct (urandom_returns 16 w ltac:(lia)) as (bs & E & _).
    rewrite E. eauto.
  - apply validates_first_raise.
Qed.

Lemma validates_first_generate_password (length : Z) (iu il id isy : bool) :
  validates_first (generate_password length iu il id isy).
Proof.
  unfold validates_first.
  destruct (Z.ltb_spec length 8) as [Hlt | Hge].
  - left. eexists. intros w. unfold generate_password.
    replace (length <? 8)%Z with true by (symmetry; apply Z.ltb_lt; lia).
    reflexivity.
  - destruct (iu || il || id || isy) eqn:Hsel.
    + right. intros w.
      destruct (generate_password_stages length iu il id isy w Hge Hsel)
        as (? & ? & ? & ? & _ & _ & Hgen & _).
      eauto.
    + left. eexists. intros w. unfold generate_password.
      replace (length <? 8)%Z with false by (symmetry; apply Z.ltb_ge; lia).
      rewrite character_pool_empty, Hsel. reflexivity.
Qed.

Lemma validates_first_generate_api_key (length : Z) :
  validates_first (generate_api_key length).
Proof.
  unfold validates_first, generate_api_key.
  destruct (length <? 16)%Z; [left; eexists; reflexivity |].
  right. intros w.
  destruct (choices_return (ascii_letters +:+ digits) length w ltac:(discriminate))
    as (cs & E).
  unfold bind. rewrite E. eauto.
Qed.

Lemma validates_first_generate_pin (length : Z) :
  validates_first (generate_pin length).
Proof.
  unfold validates_first, generate_pin.
  destruct (length <? 4)%Z; [left; eexists; reflexivity |].
  right. intros w.
  destruct (choices_return digits length w ltac:(discriminate)) as (cs & E).
  unfold bind. rewrite E. eauto.
Qed.

Lemma validates_first_generate_token (length : Z) :
  validates_first (generate_token length).
Proof.
  unfold validates_first.
  destruct (Z.ltb_spec length 0) as [Hneg | Hpos].
  - left. eexists. intros w. unfold generate_token, urandom, bind.
    replace (length <? 0)%Z with true by (symmetry; apply Z.ltb_lt; lia).
    reflexivity.
  - right. intros w.
    destruct (generate_token_returns length w Hpos) as (bs & E & _). eauto.
Qed.

Lemma generators_validate_first (generator_type : string)
    (g : Kwargs -> M string) (kwargs : Kwargs) :
  dict_get generator_type generators = Some g -> validates_first (g kwargs).
Proof.
  unfold generators, dict_get.
  repeat match goal with
         | |- context [String.eqb generator_type ?k] =>
             destruct (String.eqb generator_type k)
         end;
    intros E; try discriminate; injection E as <-;
    apply validates_first_call_with;
    auto using validates_first_generate_uuid, validates_first_generate_password,
      validates_first_generate_api_key, validates_first_generate_token,
      validates_first_generate_pin.
Qed.

Lemma world_at_fails (m : M string) (e : Exc) (n : nat) (w : World) :
  (forall w, m w = (Raised e, w)) -> world_at m n w = w.
Proof.
  intros H. induction n as [| n IH]; [reflexivity |].
  cbn [world_at]. rewrite H. exact IH.
Qed.

(** Every call of a batch gets the same arguments, and the five generators
    check their arguments before they draw anything.  So the batch of
    [generate_multiple] has no partial failure: either every line is the
    same error, and the random source is left untouched, or every line is
    an item. *)
Theorem generate_multiple_all_or_nothing (generator_type : string) (count : Z)
    (kwargs : Kwargs) (w : World) :
  dict_get generator_type generators <> None ->
  (exists e,
     generate_multiple generator_type count kwargs w
     = (Returned (batch_header generator_type count +:+ nl
                  +:+ join nl (map (fun k => error_line (Z.of_nat k) e)
                                   (seq 0 (Z.to_nat count)))),
        w))
  \/ (exists lines w',
        generate_multiple generator_type count kwargs w
        = (Returned (batch_header generator_type count +:+ nl +:+ join nl lines), w')
        /\ length lines = Z.to_nat count
        /\ forall k, k < Z.to_nat count ->
             exists item, lines !! k = Some (item_line (Z.of_nat k) item)).
Proof.
  intros Hknown.
  destruct (dict_get generator_type generators) as [g |] eqn:Hg; [| congruence].
  pose proof (generate_multiple_eq generator_type count kwargs g w Hg) as E.
  destruct (generators_validate_first generator_type g kwargs Hg) as [[e He] | Hret].
  - left. exists e. rewrite E, (world_at_fails _ e _ _ He).
    assert (Hl : batch_lines (g kwargs) count w
                 = map (fun k => error_line (Z.of_nat k) e) (seq 0 (Z.to_nat count))).
    { unfold batch_lines. apply map_ext. intros k.
      rewrite (world_at_fails _ e _ _ He), He. reflexivity. }
    rewrite Hl. reflexivity.
  - right. exists (batch_lines (g kwargs) count w), (world_at (g kwargs) (Z.to_nat count) w).
    split; [exact E |]. unfold batch_lines.
    split; [rewrite length_map, length_seq; reflexivity |].
    intros k Hk. rewrite list_lookup_fmap, lookup_seq_lt by exact Hk. simpl.
    destruct (Hret (world_at (g kwargs) k w)) as (item & w' & Hi).
    exists item. rewrite Hi. reflexivity.
Qed.

Lemma generate_multiple_all_or_nothing_witness :
  dict_get "pin" generators <> None
  /\ ((exists e,
         generate_multiple "pin" 2 [("length", AInt 3)] Reference.tape0
         = (Returned (batch_header "pin" 2 +:+ nl
                      +:+ join nl (map (fun k => error_line (Z.of_nat k) e)
                                       (seq 0 (Z.to_nat 2)))),
            Reference.tape0))
      \/ (exists lines w',
            generate_multiple "pin" 2 [("length", AInt 3)] Reference.tape0
            = (Returned (batch_header "pin" 2 +:+ nl +:+ join nl lines), w')
            /\ length lines = Z.to_nat 2
            /\ forall k, k < Z.to_nat 2 ->
                 exists item, lines !! k = Some (item_line (Z.of_nat k) item))).
Proof.
  assert (H : dict_get "pin" generators <> None) by discriminate.
  split; [exact H |].
  exact (generate_multiple_all_or_nothing "pin" 2 [("length", AInt 3)]
           Reference.tape0 H).
Defined.

(** ** UUIDs *)

Lemma set_version_testbit (x v i : Z) :
  (0 <= i)%Z ->
  Z.testbit (set_version x v) i
  = (Z.testbit x i && negb (Z.testbit 0xc000 (i - 48)) || Z.testbit 0x8000 (i - 48))
    && negb (Z.testbit 0xf000 (i - 64))
    || Z.testbit v (i - 76).
Proof.
  intros Hi. unfold set_version. cbv zeta.
  repeat (rewrite ?Z.lor_spec, ?Z.land_spec; rewrite ?Z.lnot_spec, ?Z.shiftl_spec by lia).
  reflexivity.
Qed.

Lemma nibble_testbit (n k i : Z) :
  (0 <= k)%Z -> (0 <= i)%Z ->
  Z.testbit ((n / 2 ^ k) mod 16) i = if (i <? 4)%Z then Z.testbit n (i + k) else false.
Proof.
  intros Hk Hi. change 16%Z with (2 ^ 4)%Z.
  destruct (Z.ltb_spec i 4).
  - rewrite Z.mod_pow2_bits_low by lia. rewrite Z.div_pow2_bits by lia. reflexivity.
  - apply Z.mod_pow2_bits_high. lia.
Qed.

Lemma set_version_nibble (x v : Z) :
  (0 <= v < 16)%Z -> ((set_version x v / 2 ^ 76) mod 16 = v)%Z.
Proof.
  intros Hv. apply Z.bits_inj'. intros i Hi.
  rewrite nibble_testbit by lia.
  destruct (Z.ltb_spec i 4).
  - rewrite set_version_testbit by lia.
    replace (i + 76 - 76)%Z with i by lia.
    assert (Hc : (i = 0 \/ i = 1 \/ i = 2 \/ i = 3)%Z) by lia.
    destruct Hc as [-> | [-> | [-> | ->]]]; simpl;
      rewrite ?andb_false_r; reflexivity.
  - symmetry. rewrite <- (Z.mod_small v (2 ^ 4)) by (simpl; lia).
    apply Z.mod_pow2_bits_high. lia.
Qed.

Lemma set_version_variant (x v : Z) :
  (0 <= v < 16)%Z -> (8 <= (set_version x v / 2 ^ 60) mod 16 <= 11)%Z.
Proof.
  intros Hv.
  set (y := ((set_version x v / 2 ^ 60) mod 16)%Z).
  assert (H3 : Z.testbit y 3 = true).
  { unfold y. rewrite nibble_testbit by lia. simpl Z.ltb. cbv iota.
    rewrite set_version_testbit by lia. simpl.
    rewrite andb_false_r. reflexivity. }
  assert (H2 : Z.testbit y 2 = false).
  { unfold y. rewrite nibble_testbit by lia. simpl Z.ltb. cbv iota.
    rewrite set_version_testbit by lia. simpl.
    rewrite andb_false_r. reflexivity. }
  assert (Hy : (0 <= y < 16)%Z) by (apply Z.mod_pos_bound; lia).
  clearbody y.
  pose proof (Z.testbit_spec' y 3 ltac:(lia)) as B3.
  pose proof (Z.testbit_spec' y 2 ltac:(lia)) as B2.
  rewrite H3 in B3. rewrite H2 in B2. simpl Z.b2z in B3, B2.
  change (2 ^ 3)%Z with 8%Z in B3. change (2 ^ 2)%Z with 4%Z in B2.
  clear H3 H2. Z.to_euclidean_division_equations. lia.
Qed.

Lemma hex_digit_mod (x : Z) : hex_digit (x mod 16) = hex_digit x.
Proof. unfold hex_digit. rewrite Z.mod_mod by lia. reflexivity. Qed.

Lemma be_bytes_lookup (n : nat) (x : Z) (k : nat) :
  k < n ->
  Hashlib.be_bytes n x !! k = Some ((x / 256 ^ Z.of_nat (n - 1 - k)) mod 256)%Z.
Proof.
  revert k. induction n as [| n IH]; intros k Hk; [lia |].
  destruct k as [| k]; cbn [Hashlib.be_bytes].
  - replace (S n - 1 - 0) with n by lia. reflexivity.
  - replace (S n - 1 - S k) with (n - 1 - k) by lia. apply IH. lia.
Qed.

Lemma hex_lookup (bs : list Z) (k : nat) (b : Z) :
  bs !! k = Some b ->
  list_ascii_of_string (hex bs) !! (2 * k) = Some (hex_digit (b / 16))
  /\ list_ascii_of_string (hex bs) !! (2 * k + 1) = Some (hex_digit b).
Proof.
  revert k. induction bs as [| a bs IH]; intros k Hk; [discriminate |].
  destruct k as [| k].
  - injection Hk as ->. split; reflexivity.
  - cbn [lookup list_lookup] in Hk. destruct (IH k Hk) as [H1 H2].
    replace (2 * S k) with (S (S (2 * k))) by lia.
    replace (S (S (2 * k)) + 1) with (S (S (2 * k + 1))) by lia.
    split; [exact H1 | exact H2].
Qed.

Lemma substring_take_drop (a b : nat) (s : string) :
  substring a b s = string_of_list_ascii (take b (drop a (list_ascii_of_string s))).
Proof.
  revert a b. induction s as [| c s IH]; intros a b.
  - destruct a, b; reflexivity.
  - destruct a as [| a].
    + destruct b as [| b]; [reflexivity |]. simpl. rewrite IH. reflexivity.
    + simpl. apply IH.
Qed.

Lemma string_of_list_ascii_app (l1 l2 : list ascii) :
  string_of_list_ascii (l1 ++ l2)%list = string_of_list_ascii l1 +:+ string_of_list_ascii l2.
Proof. induction l1 as [| c l1 IH]; simpl; congruence. Qed.

Lemma length_list_ascii_of_string (s : string) :
  length (list_ascii_of_string s) = String.length s.
Proof. induction s as [| c s IH]; simpl; congruence. Qed.

Lemma uuid_str_canonical (x v : Z) :
  (0 <= v < 16)%Z -> canonical_uuid v (uuid_str (set_version x v)).
Proof.
  intros Hv. set (n := set_version x v).
  exists (list_ascii_of_string (hex (Hashlib.be_bytes 16 n))).
  assert (L : length (list_ascii_of_string (hex (Hashlib.be_bytes 16 n))) = 32).
  { rewrite length_list_ascii_of_string, hex_length, be_bytes_length. reflexivity. }
  split; [exact L |]. split; [apply hex_lower |]. split; [| split].
  - unfold uuid_str. rewrite !substring_take_drop.
    set (ds := list_ascii_of_string (hex (Hashlib.be_bytes 16 n))) in *.
    rewrite (take_ge (drop 20 ds)) by (rewrite length_drop; lia).
    rewrite !string_of_list_ascii_app. cbn [string_of_list_ascii]. 
    rewrite !string_of_list_ascii_app. cbn [string_of_list_ascii].
    rewrite !string_of_list_ascii_app. cbn [string_of_list_ascii].
    rewrite !string_of_list_ascii_app. reflexivity.
  - destruct (hex_lookup _ 6 _ (be_bytes_lookup 16 n 6 ltac:(lia))) as [H _].
    change (2 * 6) with 12 in H. rewrite H. f_equal.
    rewrite <- hex_digit_mod. rewrite <- (hex_digit_mod v). f_equal.
    pose proof (set_version_nibble x v Hv) as Hn. fold n in Hn.
    change (256 ^ Z.of_nat (16 - 1 - 6))%Z with 4722366482869645213696%Z.
    change (2 ^ 76)%Z with 75557863725914323419136%Z in Hn.
    clearbody n. rewrite (Z.mod_small v 16) by lia. rewrite <- Hn. clear Hn Hv.
    Z.to_euclidean_division_equations. lia.
  - pose proof (set_version_variant x v Hv) as Hn. fold n in Hn.
    exists ((n / 2 ^ 60) mod 16)%Z. split; [exact Hn |].
    destruct (hex_lookup _ 8 _ (be_bytes_lookup 16 n 8 ltac:(lia))) as [H _].
    change (2 * 8) with 16 in H. rewrite H. f_equal.
    rewrite <- hex_digit_mod. rewrite <- (hex_digit_mod (_ mod 16)). f_equal.
    change (256 ^ Z.of_nat (16 - 1 - 8))%Z with 72057594037927936%Z.
    change (2 ^ 60)%Z with 1152921504606846976%Z.
    clearbody n. clear Hn. rewrite Z.mod_mod by lia.
    Z.to_euclidean_division_equations. lia.
Qed.

Lemma canonical_uuid_length (version : Z) (u : string) :
  canonical_uuid version u -> String.length u = 36.
Proof.
  intros (ds & L & _ & -> & _).
  rewrite length_string_of_list_ascii.
  repeat (rewrite ?length_app, ?length_cons, ?length_take, ?length_drop).
  lia.
Qed.

(** [generate_uuid]: for version 1 and for version 4, in every run, the
    result is a canonical UUID text of 36 characters whose version digit is
    the version asked for and whose variant digit is 8, 9, a or b; for
    every other version it raises the [ValueError] of the source and reads
    nothing from the environment. *)
Theorem generate_uuid_canonical (version : Z) (w : World) :
  ((version = 1 \/ version = 4)%Z ->
   exists u w',
     generate_uuid version w = (Returned u, w')
     /\ canonical_uuid version u
     /\ String.length u = 36)
  /\ (version <> 1%Z -> version <> 4%Z ->
      generate_uuid version w
      = (Raised (mkExc ValueError "Only UUID version 1 and 4 are supported"), w)).
Proof.
  split.
  - intros [-> | ->].
    + eexists _, _. split; [reflexivity |].
      assert (H : forall x, canonical_uuid 1 (uuid_str (set_version x 1)))
        by (intros x; apply uuid_str_canonical; lia).
      split; [apply H | eapply canonical_uuid_length; apply H].
    + change (generate_uuid 4) with uuid4. unfold uuid4, bind.
      destruct (urandom_returns 16 w ltac:(lia)) as (bs & E & _). rewrite E.
      eexists _, _. split; [reflexivity |].
      assert (H : canonical_uuid 4 (uuid_str (set_version (Hashlib.be_word bs) 4)))
        by (apply uuid_str_canonical; lia).
      split; [exact H | exact (canonical_uuid_length _ _ H)].
  - intros H1 H4. unfold generate_uuid.
    destruct (Z.eqb_spec version 1); [contradiction |].
    destruct (Z.eqb_spec version 4); [contradiction |]. reflexivity.
Qed.

Lemma generate_uuid_canonical_witness :
  (4 = 1 \/ 4 = 4)%Z
  /\ (exists u w',
        generate_uuid 4 Reference.tape0 = (Returned u, w')
        /\ canonical_uuid 4 u
        /\ String.length u = 36)
  /\ 5%Z <> 1%Z /\ 5%Z <> 4%Z
  /\ generate_uuid 5 Reference.tape0
     = (Raised (mkExc ValueError "Only UUID version 1 and 4 are supported"),
        Reference.tape0).
Proof.
  assert (H : (4 = 1 \/ 4 = 4)%Z) by (right; reflexivity).
  split; [exact H |].
  split; [exact (proj1 (generate_uuid_canonical 4 Reference.tape0) H) |].
  split; [discriminate |]. split; [discriminate |].
  apply (proj2 (generate_uuid_canonical 5 Reference.tape0)); discriminate.
Defined.

(** ** The generator tools of the server *)

Lemma raises_labelled {A B} (m : M A) (f : A -> B) (w : World) :
  raises (x <- m ;; ret (f x)) w <-> raises m w.
Proof.
  unfold raises, bind, ret. destruct (m w) as [[a | e] w1]; split;
    intros (e' & w' & E); try discriminate; eauto.
Qed.

Lemma generate_multiple_returns (generator_type : string) (count : Z)
    (kwargs : Kwargs) (w : World) :
  ~ raises (generate_multiple generator_type count kwargs) w.
Proof.
  intros (e & w' & E).
  destruct (dict_get generator_type generators) as [g |] eqn:Hg.
  - rewrite (generate_multiple_eq generator_type count kwargs g w Hg) in E.
    discriminate.
  - unfold generate_multiple in E. rewrite Hg in E. discriminate.
Qed.

Lemma generate_pin_raises (length : Z) (w : World) :
  raises (generate_pin length) w <-> (length < 4)%Z.
Proof.
  unfold raises, generate_pin. destruct (Z.ltb_spec length 4) as [Hlt | Hge].
  - split; [intros _; exact Hlt | intros _; eexists _, _; reflexivity].
  - split; [| lia]. intros (e & w' & E).
    destruct (choices_return digits length w ltac:(discriminate)) as (cs & Hcs).
    unfold bind in E. rewrite Hcs in E. discriminate.
Qed.

Lemma generate_api_key_raises (length : Z) (w : World) :
  raises (generate_api_key length) w <-> (length < 16)%Z.
Proof.
  unfold raises, generate_api_key. destruct (Z.ltb_spec length 16) as [Hlt | Hge].
  - split; [intros _; exact Hlt | intros _; eexists _, _; reflexivity].
  - split; [| lia]. intros (e & w' & E).
    destruct (choices_return (ascii_letters +:+ digits) length w ltac:(discriminate))
      as (cs & Hcs).
    unfold bind in E. rewrite Hcs in E. discriminate.
Qed.

Lemma generate_token_raises (length : Z) (w : World) :
  raises (generate_token length) w <-> (length < 0)%Z.
Proof.
  unfold raises. destruct (Z.ltb_spec length 0) as [Hlt | Hge].
  - split; [intros _; exact Hlt |]. intros _. eexists _, _.
    unfold generate_token, urandom, bind.
    replace (length <? 0)%Z with true by (symmetry; apply Z.ltb_lt; lia).
    reflexivity.
  - split; [| lia]. intros (e & w' & E).
    destruct (generate_token_returns length w Hge) as (bs & Hbs & _).
    rewrite Hbs in E. discriminate.
Qed.

Lemma generate_password_raises (length : Z) (iu il id isy : bool) (w : World) :
  raises (generate_password length iu il id isy) w
  <-> ((length < 8)%Z \/ iu || il || id || isy = false).
Proof.
  unfold raises. destruct (Z.ltb_spec length 8) as [Hlt | Hge].
  - split; [intros _; left; exact Hlt |]. intros _. eexists _, _.
    unfold generate_password.
    replace (length <? 8)%Z with true by (symmetry; apply Z.ltb_lt; lia).
    reflexivity.
  - destruct (iu || il || id || isy) eqn:Hsel.
    + split; [| intros [H | H]; [lia | discriminate]].
      intros (e & w' & E).
      destruct (generate_password_stages length iu il id isy w Hge Hsel)
        as (? & ? & ? & ? & _ & _ & Hgen & _).
      rewrite Hgen in E. discriminate.
    + split; [intros _; right; reflexivity |]. intros _. eexists _, _.
      unfold generate_password.
      replace (length <? 8)%Z with false by (symmetry; apply Z.ltb_ge; lia).
      rewrite character_pool_empty, Hsel. reflexivity.
Qed.

Lemma generate_uuid_raises (version : Z) (w : World) :
  raises (generate_uuid version) w <-> (version <> 1 /\ version <> 4)%Z.
Proof.
  unfold raises, generate_uuid.
  destruct (Z.eqb_spec version 1) as [-> | H1].
  - split; [intros (e & w' & E); discriminate | intros [H _]; congruence].
  - destruct (Z.eqb_spec version 4) as [-> | H4].
    + split; [| intros [_ H]; congruence]. intros (e & w' & E).
      unfold uuid4, bind in E.
      destruct (urandom_returns 16 w ltac:(lia)) as (bs & Hbs & _).
      rewrite Hbs in E. discriminate.
    + split; [intros _; split; assumption | intros _; eexists _, _; reflexivity].
Qed.


(** ** The most common words *)

Import TextAnalyzer.

Lemma count_of_count_word word word' counter :
  count_of word' (count_word word counter)
  = (if String.eqb word' word then S (count_of word' counter) else count_of word' counter).
Proof.
  unfold count_of. induction counter as [|[w k] rest IH]; simpl.
  - destruct (String.eqb word' word); reflexivity.
  - destruct (String.eqb word w) eqn:E; simpl.
    + apply String.eqb_eq in E. subst w.
      destruct (String.eqb word' word); reflexivity.
    + destruct (String.eqb word' w) eqn:E'; simpl.
      * apply String.eqb_eq in E'. subst w.
        rewrite String.eqb_sym, E. reflexivity.
      * exact IH.
Qed.

Lemma count_of_In counter item :
  NoDup (map fst counter) -> In item counter -> count_of (fst item) counter = snd item.
Proof.
  unfold count_of. induction counter as [|[w k] rest IH]; simpl; [tauto|].
  intros Hnd [<-|Hin]; simpl.
  - rewrite String.eqb_refl. reflexivity.
  - apply NoDup_cons in Hnd as [Hw Hnd].
    destruct (String.eqb (fst item) w) eqn:E.
    + apply String.eqb_eq in E. subst w. exfalso. apply Hw.
      apply list_elem_of_In. apply in_map. exact Hin.
    + apply IH; assumption.
Qed.

Lemma count_word_fst word counter :
  map fst (count_word word counter)
  = if existsb (String.eqb word) (map fst counter) then map fst counter
    else (map fst counter ++ [word])%list.
Proof.
  induction counter as [|[w k] rest IH]; simpl; [reflexivity|].
  destruct (String.eqb word w) eqn:E; simpl; [reflexivity|].
  rewrite IH. destruct (existsb _ _); reflexivity.
Qed.

Lemma count_word_ok word counter :
  counter_ok counter -> counter_ok (count_word word counter).
Proof.
  intros [Hnd Hpos]. split.
  - rewrite count_word_fst. destruct (existsb _ _) eqn:E; [exact Hnd|].
    apply NoDup_app. split; [exact Hnd|]. split; [|apply NoDup_singleton].
    intros x Hx Hw. apply list_elem_of_singleton in Hw. subst x.
    apply list_elem_of_In in Hx.
    assert (existsb (String.eqb word) (map fst counter) = true); [|congruence].
    apply existsb_exists. exists word. split; [exact Hx|apply String.eqb_refl].
  - clear Hnd. induction counter as [|[w k] rest IH]; simpl.
    + repeat constructor.
    + apply Forall_cons in Hpos as [Hk Hpos].
      destruct (String.eqb word w); constructor; simpl in *; auto; lia.
Qed.

Lemma Counter_fold words counter :
  counter_ok counter ->
  let result := fold_left (fun counter word => count_word word counter) words counter in
  counter_ok result /\
  forall word, count_of word result = count_of word counter + occurrences word words.
Proof.
  revert counter. induction words as [|w words IH]; intros counter Hok; simpl.
  - split; [exact Hok|]. intros. unfold occurrences. simpl. lia.
  - destruct (IH (count_word w counter) (count_word_ok w counter Hok)) as [Hok' Hc].
    split; [exact Hok'|]. intros word. rewrite Hc, count_of_count_word.
    unfold occurrences. simpl. destruct (String.eqb word w); simpl; lia.
Qed.

Lemma Counter_counts words :
  counter_ok (Counter words) /\
  forall item, In item (Counter words) ->
    snd item = occurrences (fst item) words /\ 1 <= snd item.
Proof.
  destruct (Counter_fold words []) as [Hok Hc].
  { split; constructor. }
  split; [exact Hok|]. intros item Hin.
  destruct Hok as [Hnd Hpos].
  rewrite <- (count_of_In _ _ Hnd Hin) at 1.
  split; [apply Hc|].
  rewrite List.Forall_forall in Hpos. apply Hpos, Hin.
Qed.

Lemma Counter_complete words word :
  In word words -> In (word, occurrences word words) (Counter words).
Proof.
  intros Hin. destruct (Counter_fold words []) as [[Hnd Hpos] Hc].
  { split; constructor. }
  fold (Counter words) in *. specialize (Hc word). simpl in Hc.
  assert (Hocc : 1 <= occurrences word words).
  { unfold occurrences. clear -Hin. induction words as [|w words IH]; simpl in *; [tauto|].
    destruct (String.eqb word w) eqn:E; simpl; [lia|].
    destruct Hin as [->|Hin]; [rewrite String.eqb_refl in E; discriminate|auto]. }
  unfold count_of in Hc.
  destruct (find _ (Counter words)) as [[w k]|] eqn:E; [|lia].
  apply find_some in E as [Hin' Heq]. simpl in *. apply String.eqb_eq in Heq.
  subst. exact Hin'.
Qed.

Lemma insert_by_count_perm item sorted :
  Permutation (insert_by_count item sorted) (item :: sorted).
Proof.
  induction sorted as [|item' rest IH]; simpl; [reflexivity|].
  destruct (snd item <? snd item'); [|reflexivity].
  rewrite IH. apply perm_swap.
Qed.

Lemma sorted_by_count_perm items : Permutation (sorted_by_count items) items.
Proof.
  induction items as [|item items IH]; simpl; [reflexivity|].
  rewrite insert_by_count_perm, IH. reflexivity.
Qed.

Lemma insert_by_count_sorted item sorted :
  StronglySorted by_decreasing_count sorted ->
  StronglySorted by_decreasing_count (insert_by_count item sorted).
Proof.
  induction 1 as [|item' rest Hs IH Hall]; simpl.
  - repeat constructor.
  - destruct (snd item <? snd item') eqn:E.
    + apply Nat.ltb_lt in E. constructor; [exact IH|].
      rewrite List.Forall_forall. intros x Hx.
      apply (Permutation_in _ (insert_by_count_perm item rest)) in Hx.
      destruct Hx as [<-|Hx]; [unfold by_decreasing_count; lia|].
      rewrite List.Forall_forall in Hall. apply Hall, Hx.
    + apply Nat.ltb_ge in E. constructor; [constructor; assumption|].
      constructor; [exact E|].
      rewrite List.Forall_forall in *. intros x Hx. specialize (Hall x Hx).
      unfold by_decreasing_count in *. lia.
Qed.

Lemma sorted_by_count_sorted items :
  StronglySorted by_decreasing_count (sorted_by_count items).
Proof.
  induction items as [|item items IH]; simpl; [constructor|].
  apply insert_by_count_sorted, IH.
Qed.

Lemma sorted_app_le (front back : list (string * nat)) :
  StronglySorted by_decreasing_count (front ++ back)%list ->
  StronglySorted by_decreasing_count front /\
  forall a b, In a front -> In b back -> snd b <= snd a.
Proof.
  induction front as [|x front IH]; simpl; intros Hs.
  - split; [constructor|tauto].
  - apply StronglySorted_inv in Hs as [Hs Hall].
    destruct (IH Hs) as [Hf Hle]. split.
    + constructor; [exact Hf|]. apply Forall_app in Hall. tauto.
    + intros a b [<-|Ha] Hb; [|auto].
      rewrite List.Forall_forall in Hall. apply Hall, in_or_app. auto.
Qed.

Lemma occurrences_filter (keep : string -> bool) word words :
  keep word = true ->
  occurrences word (List.filter keep words) = occurrences word words.
Proof.
  intros Hw. unfold occurrences.
  induction words as [|w ws IH]; simpl; [reflexivity|].
  destruct (String.eqb word w) eqn:E.
  - apply String.eqb_eq in E. subst w. rewrite Hw. simpl.
    rewrite String.eqb_refl. simpl. rewrite IH. reflexivity.
  - destruct (keep w); simpl; rewrite ?E; exact IH.
Qed.

(** [most_common_words(n)] ranks the words of the text that are not stop
    words: it returns at most [n] pairs of distinct words, none a stop
    word, each with the number of its occurrences in the text (at least
    one), in the order of decreasing count; and a word of the text that is
    no stop word is left out only when the result is full, and then every
    word returned occurs at least as often.  For [n <= 0] the result is
    empty. *)
Theorem most_common_words_ranking (words : list string) (n : Z) :
  let result := most_common_words words n in
  length result <= Z.to_nat n /\
  NoDup (map fst result) /\
  StronglySorted by_decreasing_count result /\
  (forall word count, In (word, count) result ->
     is_stop_word word = false /\ count = occurrences word words /\ 1 <= count) /\
  (forall word, In word words -> is_stop_word word = false ->
     ~ In word (map fst result) ->
     length result = Z.to_nat n /\
     forall item, In item result -> occurrences word words <= snd item).
Proof.
  unfold most_common_words, most_common.
  set (filtered_words := List.filter _ words).
  assert (Hocc : forall word, is_stop_word word = false ->
            occurrences word filtered_words = occurrences word words).
  { intros word Hw. apply occurrences_filter. unfold is_stop_word in Hw.
    rewrite Hw. reflexivity. }
  destruct (Counter_counts filtered_words) as [[Hnd _] Hcount].
  pose proof (sorted_by_count_perm (Counter filtered_words)) as Hperm.
  pose proof (sorted_by_count_sorted (Counter filtered_words)) as Hsorted.
  destruct (Z.leb_spec n 0) as [Hn|Hn]; simpl.
  { split; [lia|]. split; [constructor|]. split; [constructor|].
    split; [tauto|]. intros word _ _ _. split; [lia|tauto]. }
  set (sorted := sorted_by_count (Counter filtered_words)) in *.
  rewrite <- (take_drop (Z.to_nat n) sorted) in Hsorted.
  apply sorted_app_le in Hsorted as [Hfront Hle].
  assert (Hsub : forall item, In item (take (Z.to_nat n) sorted) ->
                   In item (Counter filtered_words)).
  { intros item Hin. apply (Permutation_in _ Hperm).
    rewrite <- (take_drop (Z.to_nat n) sorted). apply in_or_app. auto. }
  split; [rewrite length_take; lia|].
  split.
  { assert (Hnd' : NoDup (map fst sorted)).
    { assert (Hp : map fst sorted ≡ₚ map fst (Counter filtered_words))
        by apply Permutation_map, Hperm.
      rewrite Hp. exact Hnd. }
    rewrite <- (take_drop (Z.to_nat n) sorted), map_app in Hnd'.
    apply NoDup_app in Hnd'. tauto. }
  split; [exact Hfront|].
  split.
  { intros word count Hin. apply Hsub in Hin.
    assert (Hin' : In word filtered_words).
    { destruct (Hcount _ Hin) as [Hc Hpos]. simpl in *.
      unfold occurrences in Hc.
      destruct (List.filter (String.eqb word) filtered_words) as [|w l] eqn:E;
        [simpl in Hc; lia|].
      assert (Hw : In w (List.filter (String.eqb word) filtered_words))
        by (rewrite E; left; reflexivity).
      apply filter_In in Hw as [Hw Heq]. apply String.eqb_eq in Heq. subst w.
      exact Hw. }
    apply filter_In in Hin' as [_ Hstop]. apply negb_true_iff in Hstop.
    fold (is_stop_word word) in Hstop.
    destruct (Hcount _ Hin) as [Hc Hpos]. simpl in *.
    rewrite (Hocc word Hstop) in Hc. auto. }
  intros word Hin Hstop Hout.
  assert (Hin' : In word filtered_words).
  { apply filter_In. split; [exact Hin|]. fold (is_stop_word word).
    rewrite Hstop. reflexivity. }
  apply Counter_complete in Hin'. rewrite (Hocc word Hstop) in Hin'.
  apply (Permutation_in _ (Permutation_sym Hperm)) in Hin'.
  fold sorted in Hin'. rewrite <- (take_drop (Z.to_nat n) sorted) in Hin'.
  apply in_app_or in Hin' as [Hin'|Hin'].
  { exfalso. apply Hout. apply (in_map fst) in Hin'. exact Hin'. }
  split.
  - rewrite length_take. apply Nat.min_l.
    destruct (le_lt_dec (Z.to_nat n) (length sorted)) as [Hl|Hl]; [exact Hl|].
    rewrite drop_ge in Hin' by lia. destruct Hin'.
  - intros item Hitem. apply (Hle item _ Hitem Hin').
Qed.

Lemma most_common_words_ranking_witness :
  let words := ["the"; "cat"; "and"; "the"; "dog"; "saw"; "a"; "cat"] in
  length (most_common_words words 2) = 2 /\
  forall item, In item (most_common_words words 2) ->
    occurrences "saw" words <= snd item.
Proof.
  intros words.
  destruct (most_common_words_ranking words 2) as (_ & _ & _ & _ & Htop).
  apply (Htop "saw"); [simpl; tauto|reflexivity|].
  vm_compute. intuition discriminate.
Defined.

(** ** Unit conversions *)

Lemma in_dict_In {V} (key : string) (table : list (string * V)) :
  UnitConverter.in_dict key table = true <-> In key (map fst table).
Proof.
  unfold UnitConverter.in_dict.
  induction table as [|[k v] rest IH]; simpl; [split; [discriminate|tauto]|].
  destruct (String.eqb_spec key k) as [->|Hne]; [tauto|].
  rewrite IH. split; [tauto|]. intros [Heq|Hin]; [congruence|exact Hin].
Qed.

Lemma dict_get_In {V} (key : string) (table : list (string * V)) :
  In key (map fst table) -> exists v, dict_get key table = Some v.
Proof.
  intros Hin. apply in_dict_In in Hin. unfold UnitConverter.in_dict in Hin.
  destruct (dict_get key table) as [v|]; [exists v; reflexivity|discriminate].
Qed.

Lemma dict_get_not_In {V} (key : string) (table : list (string * V)) :
  ~ In key (map fst table) -> dict_get key table = None.
Proof.
  intros Hout. destruct (dict_get key table) as [v|] eqn:E; [|reflexivity].
  exfalso. apply Hout, in_dict_In. unfold UnitConverter.in_dict. rewrite E.
  reflexivity.
Qed.

Lemma existsb_eqb_In (key : string) (names : list string) :
  existsb (String.eqb key) names = true <-> In key names.
Proof.
  rewrite existsb_exists. split.
  - intros (x & Hin & Heq). apply String.eqb_eq in Heq. subst x. exact Hin.
  - intros Hin. exists key. split; [exact Hin|apply String.eqb_refl].
Qed.

(** Goes through the names of a concrete list, one goal per name. *)
Ltac each_unit H :=
  vm_compute in H;
  repeat (destruct H as [<-|H]; [vm_compute; try reflexivity; try tauto|]);
  try contradiction.

Lemma detect_unit_type_spec (unit kind : string) :
  UnitConverter.detect_unit_type unit = Some kind
  <-> In kind unit_kinds /\ In unit (units_of kind).
Proof.
  split.
  - unfold UnitConverter.detect_unit_type.
    destruct (UnitConverter.in_dict unit UnitConverter.LENGTH_CONVERSIONS) eqn:E1;
      [intros [= <-]; split; [vm_compute; tauto|apply in_dict_In, E1]|].
    destruct (UnitConverter.in_dict unit UnitConverter.WEIGHT_CONVERSIONS) eqn:E2;
      [intros [= <-]; split; [vm_compute; tauto|apply in_dict_In, E2]|].
    destruct (existsb _ UnitConverter.TEMPERATURE_UNITS) eqn:E3;
      [intros [= <-]; split; [vm_compute; tauto|apply existsb_eqb_In, E3]|].
    destruct (UnitConverter.in_dict unit UnitConverter.VOLUME_CONVERSIONS) eqn:E4;
      [intros [= <-]; split; [vm_compute; tauto|apply in_dict_In, E4]|].
    destruct (UnitConverter.in_dict unit UnitConverter.TIME_CONVERSIONS) eqn:E5;
      [intros [= <-]; split; [vm_compute; tauto|apply in_dict_In, E5]|].
    discriminate.
  - intros [Hkind Hunit]. each_unit Hkind; each_unit Hunit.
Qed.

Lemma unknown_temperature_unit (unit : string) :
  ~ In unit UnitConverter.TEMPERATURE_UNITS ->
  default unit (dict_get unit UnitConverter.unit_map) = unit /\
  existsb (String.eqb unit) ["celsius"; "fahrenheit"; "kelvin"] = false.
Proof.
  intros Hout.
  assert (Hne : forall name, In name UnitConverter.TEMPERATURE_UNITS ->
                  String.eqb unit name = false).
  { intros name Hin. destruct (String.eqb_spec unit name) as [->|]; tauto. }
  unfold UnitConverter.unit_map. simpl.
  rewrite !Hne by (vm_compute; tauto). split; reflexivity.
Qed.

Lemma known_temperature_unit (unit : string) :
  In unit UnitConverter.TEMPERATURE_UNITS ->
  In (default unit (dict_get unit UnitConverter.unit_map))
     ["celsius"; "fahrenheit"; "kelvin"].
Proof. intros Hin. each_unit Hin. Qed.

Lemma factor_not_zero (kind unit : string) (table : list (string * Q)) (factor : Q) :
  In (kind, table)
     [("length", UnitConverter.LENGTH_CONVERSIONS);
      ("weight", UnitConverter.WEIGHT_CONVERSIONS);
      ("volume", UnitConverter.VOLUME_CONVERSIONS);
      ("time", UnitConverter.TIME_CONVERSIONS)] ->
  dict_get unit table = Some factor -> ~ (factor == 0)%Q.
Proof.
  intros Htable Hget.
  assert (Hall : forallb (fun entry => negb (Qeq_bool (snd entry) 0)) table = true).
  { simpl in Htable.
    repeat (destruct Htable as [[= <- <-]|Htable]; [vm_compute; reflexivity|]).
    contradiction. }
  clear Htable. induction table as [|[k v] rest IH]; simpl in *; [discriminate|].
  apply andb_prop in Hall as [Hv Hall].
  destruct (String.eqb unit k); [|exact (IH Hget Hall)].
  injection Hget as <-. apply negb_true_iff in Hv.
  apply Qeq_bool_neq. exact Hv.
Qed.

Section ConvertFacts.

Import UnitConverter.

Context {number : Type} {host : Host number}.

Lemma converter_of_kind (kind : string) :
  In kind unit_kinds ->
  dict_get kind converters = Some convert_temperature /\ kind = "temperature"
  \/ exists table,
       dict_get kind converters = Some (convert_by_table kind table) /\
       units_of kind = map fst table /\
       In (kind, table)
          [("length", LENGTH_CONVERSIONS); ("weight", WEIGHT_CONVERSIONS);
           ("volume", VOLUME_CONVERSIONS); ("time", TIME_CONVERSIONS)].
Proof.
  intros Hkind. simpl in Hkind.
  destruct Hkind as [<-|[<-|[<-|[<-|[<-|[]]]]]].
  - right. exists LENGTH_CONVERSIONS. repeat split. simpl. tauto.
  - right. exists WEIGHT_CONVERSIONS. repeat split. simpl. tauto.
  - left. split; reflexivity.
  - right. exists VOLUME_CONVERSIONS. repeat split. simpl. tauto.
  - right. exists TIME_CONVERSIONS. repeat split. simpl. tauto.
Qed.

(** What the converter of a kind does with the units it gets. *)
Lemma converter_refuses (kind : string) (value : number) (from_unit to_unit : string) :
  In kind unit_kinds ->
  exists converter,
    dict_get kind converters = Some converter /\
    (~ In (str_lower from_unit) (units_of kind) ->
     converter value from_unit to_unit
     = Raised (mkExc ValueError
                 ("Unknown " +:+ kind +:+ " unit: " +:+ str_lower from_unit))) /\
    (In (str_lower from_unit) (units_of kind) ->
     ~ In (str_lower to_unit) (units_of kind) ->
     converter value from_unit to_unit
     = Raised (mkExc ValueError
                 ("Unknown " +:+ kind +:+ " unit: " +:+ str_lower to_unit))).
Proof.
  intros Hkind.
  destruct (converter_of_kind kind Hkind) as [[Hget ->]|(table & Hget & Hunits & _)].
  - exists convert_temperature. split; [exact Hget|].
    change (units_of "temperature") with TEMPERATURE_UNITS.
    unfold convert_temperature. cbv zeta. split.
    + intros Hfrom. destruct (unknown_temperature_unit _ Hfrom) as [-> ->].
      reflexivity.
    + intros Hfrom Hto.
      apply known_temperature_unit, existsb_eqb_In in Hfrom. rewrite Hfrom.
      destruct (unknown_temperature_unit _ Hto) as [-> ->]. reflexivity.
  - exists (convert_by_table kind table). split; [exact Hget|]. rewrite Hunits.
    unfold convert_by_table. cbv zeta. split.
    + intros Hfrom. rewrite (dict_get_not_In _ _ Hfrom). reflexivity.
    + intros Hfrom Hto. destruct (dict_get_In _ _ Hfrom) as [f ->].
      rewrite (dict_get_not_In _ _ Hto). reflexivity.
Qed.

Lemma kind_in_use_resolved (unit_type : option string) (from_unit_lower kind : string) :
  kind_in_use unit_type from_unit_lower kind ->
  match unit_type with
  | None => detect_unit_type from_unit_lower
  | Some given => Some given
  end = Some kind.
Proof.
  intros [Hkind [->|[-> Hfrom]]]; [reflexivity|].
  apply detect_unit_type_spec. split; assumption.
Qed.

(** [convert_unit] refuses in four ways, each with its own text, and
    without any arithmetic: no kind knows the source unit (the text quotes
    the unit as given); the unit type given is not one of the five names
    (compared as given, not lower-cased); the kind in use does not know the
    source unit; it knows the source unit but not the target unit (these
    two texts carry the lower-cased unit).  In particular a conversion
    between units of different kinds is refused. *)
Theorem convert_unit_refusals (value : number) (from_unit to_unit : string)
    (unit_type : option string) :
  (unit_type = None ->
   (forall kind, In kind unit_kinds -> ~ In (str_lower from_unit) (units_of kind)) ->
   convert_unit value from_unit to_unit unit_type
   = Returned ("‚ùå Could not detect unit type for '" +:+ from_unit +:+ "'")) /\
  (forall given, unit_type = Some given -> ~ In given unit_kinds ->
   convert_unit value from_unit to_unit unit_type
   = Returned ("‚ùå Unknown unit type: " +:+ given)) /\
  (forall kind, kind_in_use unit_type (str_lower from_unit) kind ->
   (~ In (str_lower from_unit) (units_of kind) ->
    convert_unit value from_unit to_unit unit_type
    = Returned ("‚ùå Unknown " +:+ kind +:+ " unit: " +:+ str_lower from_unit)) /\
   (In (str_lower from_unit) (units_of kind) ->
    ~ In (str_lower to_unit) (units_of kind) ->
    convert_unit value from_unit to_unit unit_type
    = Returned ("‚ùå Unknown " +:+ kind +:+ " unit: " +:+ str_lower to_unit))).
Proof.
  split; [|split].
  - intros -> Hnone. unfold convert_unit. cbv zeta.
    destruct (detect_unit_type (str_lower from_unit)) as [kind|] eqn:E;
      [|reflexivity].
    apply detect_unit_type_spec in E as [Hkind Hunit].
    destruct (Hnone kind Hkind Hunit).
  - intros given -> Hout. unfold convert_unit. cbv zeta.
    assert (Hget : dict_get given converters = None).
    { apply dict_get_not_In. exact Hout. }
    rewrite Hget. reflexivity.
  - intros kind Huse. pose proof (kind_in_use_resolved _ _ _ Huse) as Hres.
    destruct Huse as [Hkind _].
    destruct (converter_refuses kind value from_unit to_unit Hkind)
      as (converter & Hget & Hfrom & Hto).
    unfold convert_unit. cbv zeta. rewrite Hres.
    rewrite Hget.
    split.
    + intros H. rewrite (Hfrom H). reflexivity.
    + intros H H'. rewrite (Hto H H'). reflexivity.
Qed.

Lemma and_then_only_Exception {A B} (o : Outcome A) (k : A -> Outcome B) :
  only_Exception o -> (forall a, only_Exception (k a)) ->
  only_Exception (and_then o k).
Proof. destruct o as [a|e]; simpl; auto. Qed.

Hypothesis add_raises : forall a b, only_Exception (py_add a b).
Hypothesis sub_raises : forall a b, only_Exception (py_sub a b).
Hypothesis mul_raises : forall a b, only_Exception (py_mul a b).
Hypothesis div_raises : forall a b, only_Exception (py_truediv a b).
Hypothesis round_raises : forall x ndigits, only_Exception (py_round x ndigits).

Lemma converters_only_Exception (kind : string) converter value from_unit to_unit :
  dict_get kind converters = Some converter ->
  only_Exception (converter value from_unit to_unit).
Proof.
  assert (Htable : forall k table,
            only_Exception (convert_by_table k table value from_unit to_unit)).
  { intros k table. unfold convert_by_table. cbv zeta.
    destruct (dict_get _ table); [|reflexivity].
    destruct (dict_get _ table); [|reflexivity].
    repeat (apply and_then_only_Exception; [auto|intros ?]). auto. }
  assert (Htemp : only_Exception (convert_temperature value from_unit to_unit)).
  { unfold convert_temperature. cbv zeta.
    destruct (negb _); [reflexivity|]. destruct (negb _); [reflexivity|].
    apply and_then_only_Exception.
    - destruct (String.eqb _ "fahrenheit");
        [repeat (apply and_then_only_Exception; [auto|intros ?]); auto|].
      destruct (String.eqb _ "kelvin"); [auto|exact I].
    - intros celsius. apply and_then_only_Exception; [|auto].
      destruct (String.eqb _ "fahrenheit");
        [repeat (apply and_then_only_Exception; [auto|intros ?]); auto|].
      destruct (String.eqb _ "kelvin"); [auto|exact I]. }
  unfold converters. simpl.
  repeat (destruct (String.eqb kind _); [intros [= <-]; solve [apply Htable|exact Htemp]|]).
  discriminate.
Qed.

(** When the arithmetic raises nothing outside [Exception],
    [convert_unit] raises nothing: every call returns a text. *)
Theorem convert_unit_returns_text (value : number) (from_unit to_unit : string)
    (unit_type : option string) :
  exists text, convert_unit value from_unit to_unit unit_type = Returned text.
Proof.
  unfold convert_unit. cbv zeta.
  match goal with
  | |- exists text, match ?body with _ => _ end = _ =>
      assert (Hbody : only_Exception body); [|destruct body as [text|e]]
  end.
  - destruct (match unit_type with None => _ | Some given => _ end) as [kind|];
      [|exact I].
    destruct (dict_get kind _) as [converter|] eqn:Hget; [|exact I].
    apply and_then_only_Exception; [|intros; exact I].
    exact (converters_only_Exception kind converter value from_unit to_unit Hget).
  - exists text. reflexivity.
  - simpl in Hbody. destruct (is_ValueError (exc_class e)); [eexists; reflexivity|].
    rewrite Hbody. eexists. reflexivity.
Qed.

End ConvertFacts.

Section ConvertSucceeds.

Import UnitConverter.

Context {number : Type} {host : Host number}.

(** Arithmetic as on floats: nothing raises but a division by zero. *)
Hypothesis add_returns : forall a b, exists c, py_add a b = Returned c.
Hypothesis sub_returns : forall a b, exists c, py_sub a b = Returned c.
Hypothesis mul_returns : forall a b, exists c, py_mul a b = Returned c.
Hypothesis div_float_returns :
  forall a q, ~ (q == 0)%Q -> exists c, py_truediv a (float_literal q) = Returned c.
Hypothesis div_int_returns :
  forall a z, z <> 0%Z -> exists c, py_truediv a (int_literal z) = Returned c.
Hypothesis round_returns : forall x ndigits, exists y, py_round x ndigits = Returned y.

(** Runs the arithmetic of a conversion, one operation at a time. *)
Ltac arithmetic :=
  repeat match goal with
  | |- context [and_then (py_add ?a ?b) _] =>
      let c := fresh "c" in destruct (add_returns a b) as [c ->]; cbn [and_then]
  | |- context [and_then (py_sub ?a ?b) _] =>
      let c := fresh "c" in destruct (sub_returns a b) as [c ->]; cbn [and_then]
  | |- context [and_then (py_mul ?a ?b) _] =>
      let c := fresh "c" in destruct (mul_returns a b) as [c ->]; cbn [and_then]
  | |- context [and_then (py_truediv ?a (int_literal ?z)) _] =>
      let c := fresh "c" in
      destruct (div_int_returns a z ltac:(discriminate)) as [c ->]; cbn [and_then]
  | |- context [and_then (Returned ?a) _] => cbn [and_then]
  end.

Lemma converter_converts (kind : string) (value : number) (from_unit to_unit : string) :
  In kind unit_kinds ->
  In (str_lower from_unit) (units_of kind) ->
  In (str_lower to_unit) (units_of kind) ->
  exists converter result,
    dict_get kind converters = Some converter /\
    converter value from_unit to_unit = Returned result.
Proof.
  intros Hkind Hfrom Hto.
  destruct (converter_of_kind (host := host) kind Hkind)
    as [[Hget ->]|(table & Hget & Hunits & Htable)].
  - exists convert_temperature.
    change (units_of "temperature") with TEMPERATURE_UNITS in Hfrom, Hto.
    apply known_temperature_unit in Hfrom, Hto.
    assert (exists result, convert_temperature value from_unit to_unit = Returned result)
      as [result Hresult]; [|exists result; split; assumption].
    unfold convert_temperature. cbv zeta.
    rewrite (proj2 (existsb_eqb_In _ _) Hfrom), (proj2 (existsb_eqb_In _ _) Hto).
    cbn [negb].
    destruct (String.eqb _ "fahrenheit"); [|destruct (String.eqb _ "kelvin")];
      (destruct (String.eqb _ "fahrenheit"); [|destruct (String.eqb _ "kelvin")]);
      arithmetic; apply round_returns.
  - rewrite Hunits in Hfrom, Hto. exists (convert_by_table kind table).
    assert (exists result, convert_by_table kind table value from_unit to_unit = Returned result)
      as [result Hresult]; [|exists result; split; assumption].
    unfold convert_by_table. cbv zeta.
    destruct (dict_get_In _ _ Hfrom) as [f ->].
    destruct (dict_get_In _ _ Hto) as [t Ht]. rewrite Ht.
    destruct (mul_returns value (float_literal f)) as [base ->]. cbn [and_then].
    destruct (div_float_returns base t (factor_not_zero _ _ _ _ Htable Ht))
      as [quotient ->]. cbn [and_then].
    apply round_returns.
Qed.

(** On floats, where the arithmetic does not raise, a conversion between
    two units of the kind in use succeeds, whatever the case the units
    are written in; the line it returns starts with the icon of the kind
    and repeats the value and both units as they were given. *)
Theorem convert_unit_converts (value : number) (from_unit to_unit : string)
    (unit_type : option string) (kind : string) :
  kind_in_use unit_type (str_lower from_unit) kind ->
  In (str_lower from_unit) (units_of kind) ->
  In (str_lower to_unit) (units_of kind) ->
  exists icon result,
    dict_get kind icon_map = Some icon /\
    convert_unit value from_unit to_unit unit_type
    = Returned (icon +:+ " " +:+ py_format value +:+ " " +:+ from_unit
                +:+ " = " +:+ py_format result +:+ " " +:+ to_unit).
Proof.
  intros Huse Hfrom Hto. pose proof (kind_in_use_resolved _ _ _ Huse) as Hres.
  destruct Huse as [Hkind _].
  destruct (converter_converts kind value from_unit to_unit Hkind Hfrom Hto)
    as (converter & result & Hget & Hresult).
  assert (exists icon, dict_get kind icon_map = Some icon) as [icon Hicon].
  { simpl in Hkind.
    destruct Hkind as [<-|[<-|[<-|[<-|[<-|[]]]]]]; eexists; reflexivity. }
  exists icon, result. split; [exact Hicon|].
  unfold convert_unit. cbv zeta. rewrite Hres, Hget, Hresult. cbn [and_then].
  rewrite Hicon. reflexivity.
Qed.

End ConvertSucceeds.

(** No unit name belongs to two kinds: the kind that knows a name is the
    one the detection finds, whatever the order of its tests. *)
Theorem unit_kinds_disjoint (unit kind kind' : string) :
  In kind unit_kinds -> In unit (units_of kind) ->
  In kind' unit_kinds -> In unit (units_of kind') ->
  kind = kind' /\ UnitConverter.detect_unit_type unit = Some kind.
Proof.
  intros Hkind Hunit Hkind' Hunit'.
  assert (H : UnitConverter.detect_unit_type unit = Some kind)
    by (apply detect_unit_type_spec; split; assumption).
  assert (H' : UnitConverter.detect_unit_type unit = Some kind')
    by (apply detect_unit_type_spec; split; assumption).
  split; [congruence|exact H].
Qed.

Lemma unit_kinds_disjoint_witness :
  "weight" = "weight" /\ UnitConverter.detect_unit_type "lbs" = Some "weight".
Proof.
  apply (unit_kinds_disjoint "lbs" "weight" "weight"); vm_compute; tauto.
Defined.

Lemma convert_unit_refusals_witness :
  ExactNumbers.convert_unit 2 "Parsecs" "km" None
  = Returned "‚ùå Could not detect unit type for 'Parsecs'" /\
  ExactNumbers.convert_unit 2 "m" "km" (Some "Length")
  = Returned "‚ùå Unknown unit type: Length" /\
  ExactNumbers.convert_unit 2 "Feet" "KG" (Some "weight")
  = Returned "‚ùå Unknown weight unit: feet" /\
  ExactNumbers.convert_unit 2 "Meters" "KG" None
  = Returned "‚ùå Unknown length unit: kg".
Proof.
  pose proof (fun from_unit to_unit unit_type =>
    convert_unit_refusals (host := ExactNumbers.host) 2%Q
      from_unit to_unit unit_type) as H.
  split; [|split; [|split]].
  - apply (proj1 (H "Parsecs" "km" None) eq_refl).
    intros kind Hkind Hin. vm_compute in Hkind.
    repeat (destruct Hkind as [<-|Hkind];
            [vm_compute in Hin; intuition discriminate|]).
    contradiction.
  - apply (proj1 (proj2 (H "m" "km" (Some "Length"))) "Length" eq_refl).
    vm_compute. intuition discriminate.
  - apply (proj2 (proj2 (H "Feet" "KG" (Some "weight"))) "weight").
    + split; [vm_compute; tauto|left; reflexivity].
    + vm_compute. intuition discriminate.
  - apply (proj2 (proj2 (H "Meters" "KG" None)) "length").
    + split; [vm_compute; tauto|right; split; [reflexivity|vm_compute; tauto]].
    + vm_compute. tauto.
    + vm_compute. intuition discriminate.
Defined.

Lemma convert_unit_returns_text_witness :
  exists text, ExactNumbers.convert_unit 1 "kelvin" "furlong" None = Returned text.
Proof.
  apply (convert_unit_returns_text (host := ExactNumbers.host));
    try (intros a b; exact I).
  intros a b. simpl. unfold ExactNumbers.truediv.
  destruct (Qeq_bool b 0); reflexivity.
Defined.

Lemma convert_unit_converts_witness :
  exists icon result,
    dict_get "length" UnitConverter.icon_map = Some icon /\
    ExactNumbers.convert_unit 100 "Meters" "FEET" None
    = Returned (icon +:+ " " +:+ ExactNumbers.format 100 +:+ " " +:+ "Meters"
                +:+ " = " +:+ ExactNumbers.format result +:+ " " +:+ "FEET").
Proof.
  apply (convert_unit_converts (host := ExactNumbers.host)).
  - intros a b. eexists. reflexivity.
  - intros a b. eexists. reflexivity.
  - intros a b. eexists. reflexivity.
  - intros a q Hq. simpl. unfold ExactNumbers.truediv.
    destruct (Qeq_bool q 0) eqn:E; [|eexists; reflexivity].
    apply Qeq_bool_eq in E. contradiction.
  - intros a z Hz. simpl. unfold ExactNumbers.truediv.
    destruct (Qeq_bool (inject_Z z) 0) eqn:E; [|eexists; reflexivity].
    apply Qeq_bool_eq in E. unfold Qeq in E. simpl in E. lia.
  - intros x n. eexists. reflexivity.
  - split; [vm_compute; tauto|right; split; [reflexivity|vm_compute; tauto]].
  - vm_compute. tauto.
  - vm_compute. tauto.
Defined.
